(** * wayback-machine-mcp: the lookup adapter of [server.py]

    A shallow embedding of the five tool handlers of [server.py], of
    [list_tools], [call_tool] and [_format_timestamp], with the properties
    of the adapter proved over it.

    Conventions of the embedding.
    - A Python [str] is a [string]; every [ascii] stands for one character
      (code points below 256).  [len], slicing, [ljust], [split] and [in]
      count characters, as Python does.
    - Python integers are [Z].
    - A JSON document is a [json] value; a Python [dict] built by the code
      keeps its keys in insertion order (an association list).
    - Tool arguments ([arguments: dict[str, Any]]) are a [gmap string atom]
      of JSON scalars, the types the tools' [inputSchema] declares.
    - An exception is a value of [exn]; code that may raise returns a
      [result].  Code that talks to the archive is written against the
      interface [Effects] and runs in the monad [M], which reads the
      upstream answers from an [upstream] oracle and records every request
      it issues.
    - [json.dumps(v, indent=2)] is kept symbolic as [Dumps v].
    - JSON numbers are integers; floating point is not modelled.
    - The answers of the archive are typed by the contract of each
      endpoint: any JSON document for the availability API, rows of strings
      for the CDX API, text for a page.
    - The messages of the exceptions Python's built-ins raise are those of
      CPython 3.12; the message of an HTTP status error is a field of the
      response.  [strptime] follows the regular expressions of CPython's
      [_strptime]; [strftime] writes the year as glibc does, without
      padding.
    - [exn] holds the classes under [Exception].  The exceptions outside
      it ([asyncio.CancelledError], [KeyboardInterrupt], [SystemExit]) are
      a [base_exception]; they reach a handler at an [await], in the
      reading of the handlers as a [Task]. *)

From Stdlib Require Import ZArith Ascii String List Lia Bool.
From stdpp Require Import base option list strings pretty gmap.

Local Open Scope Z_scope.

(** ** Python values *)

(** JSON scalars: what a tool argument can be. *)
Inductive atom : Type :=
| ANone
| ABool (b : bool)
| AInt (z : Z)
| AStr (s : string).

(** JSON documents, as [response.json()] returns them and as the handlers
    build them for [json.dumps]. *)
#[warnings="-register-all"]
Inductive json : Type :=
| JNull
| JBool (b : bool)
| JInt (z : Z)
| JStr (s : string)
| JArr (l : list json)
| JObj (fields : list (string * json)).

Definition json_of_atom (a : atom) : json :=
  match a with
  | ANone => JNull
  | ABool b => JBool b
  | AInt z => JInt z
  | AStr s => JStr s
  end.

(** Exceptions, by class: the classes under [Exception] that the code, the
    built-ins and [httpx] raise.  [str_exn] is Python's [str(e)]. *)
Inductive exn : Type :=
| KeyError (key : string)
| IndexError (msg : string)
| ValueError (msg : string)
| TypeError (msg : string)
| AttributeError (msg : string)
| JSONDecodeError (msg : string)
| HTTPStatusError (msg : string)
| TransportError (msg : string).

Inductive result (A : Type) : Type :=
| Ok (a : A)
| Raise (e : exn).
Arguments Ok {A} a.
Arguments Raise {A} e.

(** ** Strings *)

Module Str.

(** [len(s)] *)
Fixpoint len (s : string) : Z :=
  match s with
  | EmptyString => 0
  | String _ s' => 1 + len s'
  end.

(** [s[:n]] for a non-negative bound [n]. *)
Fixpoint take (n : Z) (s : string) : string :=
  match s with
  | EmptyString => EmptyString
  | String c s' => if n <=? 0 then EmptyString else String c (take (n - 1) s')
  end.

(** [c * n] *)
Fixpoint replicate (n : nat) (c : ascii) : string :=
  match n with
  | O => EmptyString
  | S n' => String c (replicate n' c)
  end.

(** [s.ljust(width, fill)] *)
Definition ljust (width : Z) (fill : ascii) (s : string) : string :=
  s +:+ replicate (Z.to_nat (width - len s)) fill.

(** [s.startswith(p)] and the rest of [s] behind [p]. *)
Fixpoint strip_prefix (p s : string) : option string :=
  match p, s with
  | EmptyString, _ => Some s
  | String a p', String b s' => if Ascii.eqb a b then strip_prefix p' s' else None
  | String _ _, EmptyString => None
  end.

(** [s.split(sep, 1)] for a non-empty [sep]: [Some (a, b)] when the result
    is the two-element list [[a, b]] (split at the leftmost occurrence of
    [sep]), [None] when it is the one-element list [[s]]. *)
Fixpoint split_once (sep s : string) : option (string * string) :=
  match strip_prefix sep s with
  | Some rest => Some (EmptyString, rest)
  | None =>
      match s with
      | EmptyString => None
      | String c s' =>
          match split_once sep s' with
          | Some (a, b) => Some (String c a, b)
          | None => None
          end
      end
  end.

(** [sep in s] *)
Fixpoint contains (sep s : string) : bool :=
  match strip_prefix sep s with
  | Some _ => true
  | None =>
      match s with
      | EmptyString => false
      | String _ s' => contains sep s'
      end
  end.

Definition code (c : ascii) : Z := Z.of_N (N_of_ascii c).

Definition in_range (lo hi c : ascii) : bool :=
  (code lo <=? code c) && (code c <=? code hi).

Definition is_digit : ascii -> bool := in_range "0" "9".

Definition digit_value (c : ascii) : Z := code c - 48.

Definition digit_char (d : Z) : ascii := ascii_of_N (Z.to_N (48 + d)).

(** The characters [int()] skips around a literal: the white space of
    ASCII (tab to carriage return, and the space), and the white space
    above ASCII, which [int()] reads as spaces.  The separators 28..31,
    which [str.strip()] removes, are not among them. *)
Definition is_space (c : ascii) : bool :=
  let n := code c in
  ((9 <=? n) && (n <=? 13)) || (n =? 32) || (n =? 133) || (n =? 160).

Fixpoint lstrip (s : string) : string :=
  match s with
  | String c s' => if is_space c then lstrip s' else s
  | EmptyString => EmptyString
  end.

Fixpoint rev_onto (s acc : string) : string :=
  match s with
  | EmptyString => acc
  | String c s' => rev_onto s' (String c acc)
  end.

Definition rev (s : string) : string := rev_onto s EmptyString.

(** [s] without the characters [int()] skips at its two ends. *)
Definition strip (s : string) : string := rev (lstrip (rev (lstrip s))).

End Str.

(** ** Built-in conversions on strings and scalars *)

Module Py.

Definition squote : ascii := ascii_of_N 39.
Definition dquote : ascii := ascii_of_N 34.
Definition backslash : ascii := ascii_of_N 92.

Definition hex_char (d : Z) : ascii :=
  if d <? 10 then Str.digit_char d else ascii_of_N (Z.to_N (87 + d)).

(** How [repr] writes one character inside the quotes [q]. *)
Definition repr_char (q c : ascii) : string :=
  let n := Str.code c in
  if Ascii.eqb c q || Ascii.eqb c backslash then String backslash (String c EmptyString)
  else if n =? 9 then String backslash "t"
  else if n =? 10 then String backslash "n"
  else if n =? 13 then String backslash "r"
  else if (n <? 32) || (n =? 127) || ((128 <=? n) && (n <=? 160)) || (n =? 173)
  then String backslash (String "x" (String (hex_char (n / 16)) (String (hex_char (n mod 16)) EmptyString)))
  else String c EmptyString.

Fixpoint repr_body (q : ascii) (s : string) : string :=
  match s with
  | EmptyString => EmptyString
  | String c s' => repr_char q c +:+ repr_body q s'
  end.

(** [repr(s)] of a [str]: single quotes, unless [s] holds a single quote
    and no double quote. *)
Definition repr_str (s : string) : string :=
  let q := if Str.contains (String squote EmptyString) s
              && negb (Str.contains (String dquote EmptyString) s)
           then dquote else squote in
  String q (repr_body q s +:+ String q EmptyString).

(** [str(a)], which is also what an f-string field [{a}] renders. *)
Definition str (a : atom) : string :=
  match a with
  | ANone => "None"
  | ABool true => "True"
  | ABool false => "False"
  | AInt z => pretty z
  | AStr s => s
  end.

(** [repr(a)] *)
Definition repr (a : atom) : string :=
  match a with
  | AStr s => repr_str s
  | _ => str a
  end.

(** [type(a).__name__] *)
Definition type_name (a : atom) : string :=
  match a with
  | ANone => "NoneType"
  | ABool _ => "bool"
  | AInt _ => "int"
  | AStr _ => "str"
  end.

(** Truth value of a scalar, as [if a:] tests it. *)
Definition truthy (a : atom) : bool :=
  match a with
  | ANone => false
  | ABool b => b
  | AInt z => negb (z =? 0)
  | AStr s => negb (Str.len s =? 0)
  end.

(** Truth value of a JSON document. *)
Definition truthy_json (j : json) : bool :=
  match j with
  | JNull => false
  | JBool b => b
  | JInt z => negb (z =? 0)
  | JStr s => negb (Str.len s =? 0)
  | JArr l => match l with [] => false | _ => true end
  | JObj f => match f with [] => false | _ => true end
  end.

(** The digits of a decimal literal, underscores allowed between digits:
    the value read so far, the number of digits read, and whether the
    previous character was a digit. *)
Fixpoint digits (acc : Z) (count : Z) (after_digit : bool) (s : string) : option (Z * Z) :=
  match s with
  | EmptyString => if after_digit then Some (acc, count) else None
  | String c s' =>
      if Str.is_digit c then digits (10 * acc + Str.digit_value c) (count + 1) true s'
      else if Ascii.eqb c "_" && after_digit then digits acc count false s'
      else None
  end.

(** The sign and the digits of [int(s)]'s literal, white space stripped. *)
Definition literal (s : string) : option (Z * Z) :=
  match Str.strip s with
  | String "-" s' =>
      match digits 0 0 false s' with
      | Some (v, n) => Some (- v, n)
      | None => None
      end
  | String "+" s' => digits 0 0 false s'
  | s' => digits 0 0 false s'
  end.

(** [sys.get_int_max_str_digits()], CPython's default. *)
Definition int_max_str_digits : Z := 4300.

(** [int(s)] of a [str].  The message of an invalid literal shows at most
    200 characters of [repr(s)]. *)
Definition int_of_str (s : string) : result Z :=
  match literal s with
  | None =>
      Raise (ValueError ("invalid literal for int() with base 10: "
                         +:+ Str.take 200 (repr_str s)))
  | Some (v, n) =>
      if int_max_str_digits <? n
      then Raise (ValueError ("Exceeds the limit (4300 digits) for integer string conversion: value has "
                               +:+ pretty n +:+ " digits; use sys.set_int_max_str_digits() to increase the limit"))
      else Ok v
  end.

(** [int(a)] *)
Definition int (a : atom) : result Z :=
  match a with
  | ANone => Raise (TypeError "int() argument must be a string, a bytes-like object or a real number, not 'NoneType'")
  | ABool b => Ok (Z.b2z b)
  | AInt z => Ok z
  | AStr s => int_of_str s
  end.

(** [str(e)] of an exception. *)
Definition str_exn (e : exn) : string :=
  match e with
  | KeyError k => repr_str k
  | IndexError m | ValueError m | TypeError m | AttributeError m
  | JSONDecodeError m | HTTPStatusError m | TransportError m => m
  end.

End Py.


(** ** [datetime.strptime] and [strftime] for the two formats of the code *)

Module Datetime.

Record datetime : Type := mkDatetime {
  year : Z; month : Z; day : Z; hour : Z; minute : Z; second : Z
}.

(** The regular expression [_strptime] compiles a format into is a sequence
    of groups, one per directive; a group is an ordered list of
    alternatives, an alternative a sequence of character classes. *)
Definition charclass : Type := ascii -> bool.
Definition alternative : Type := list charclass.
Definition group : Type := list alternative.

Definition one (c : ascii) : charclass := Ascii.eqb c.
Definition digit : charclass := Str.is_digit.
Definition range (lo hi : ascii) : charclass := Str.in_range lo hi.

(** [%Y]: [\d\d\d\d] *)
Definition re_Y : group := [[digit; digit; digit; digit]].
(** [%m]: [1[0-2]|0[1-9]|[1-9]] *)
Definition re_m : group := [[one "1"; range "0" "2"]; [one "0"; range "1" "9"]; [range "1" "9"]].
(** [%d]: [3[0-1]|[1-2]\d|0[1-9]|[1-9]| [1-9]] *)
Definition re_d : group :=
  [[one "3"; range "0" "1"]; [range "1" "2"; digit]; [one "0"; range "1" "9"];
   [range "1" "9"]; [one " "; range "1" "9"]].
(** [%H]: [2[0-3]|[0-1]\d|\d] *)
Definition re_H : group := [[one "2"; range "0" "3"]; [range "0" "1"; digit]; [digit]].
(** [%M]: [[0-5]\d|\d] *)
Definition re_M : group := [[range "0" "5"; digit]; [digit]].
(** [%S]: [6[0-1]|[0-5]\d|\d] *)
Definition re_S : group := [[one "6"; range "0" "1"]; [range "0" "5"; digit]; [digit]].

(** The text an alternative matches at the start of [s], and what follows. *)
Fixpoint match_alternative (a : alternative) (s : string) : option (string * string) :=
  match a, s with
  | [], _ => Some (EmptyString, s)
  | p :: a', String c s' =>
      if p c then
        match match_alternative a' s' with
        | Some (m, rest) => Some (String c m, rest)
        | None => None
        end
      else None
  | _ :: _, EmptyString => None
  end.

(** [re.match]: the groups in sequence from the start of [s], the
    alternatives of each tried in order, backtracking into earlier groups
    when the later ones fail.  Returns the text of each group and the
    unmatched rest of [s]. *)
Fixpoint match_groups (gs : list group) (s : string) : option (list string * string) :=
  match gs with
  | [] => Some ([], s)
  | g :: gs' =>
      (fix try (alts : list alternative) : option (list string * string) :=
         match alts with
         | [] => None
         | a :: alts' =>
             match match_alternative a s with
             | Some (m, rest) =>
                 match match_groups gs' rest with
                 | Some (ms, r) => Some (m :: ms, r)
                 | None => try alts'
                 end
             | None => try alts'
             end
         end) g
  end.

Definition is_leap (y : Z) : bool :=
  ((y mod 4 =? 0) && negb (y mod 100 =? 0)) || (y mod 400 =? 0).

Definition days_in_month (y m : Z) : Z :=
  if m =? 2 then (if is_leap y then 29 else 28)
  else if (m =? 4) || (m =? 6) || (m =? 9) || (m =? 11) then 30
  else 31.

(** The range checks of [datetime.date] and [datetime.datetime]. *)
Definition valid (dt : datetime) : bool :=
  (1 <=? year dt) && (year dt <=? 9999)
  && (1 <=? month dt) && (month dt <=? 12)
  && (1 <=? day dt) && (day dt <=? days_in_month (year dt) (month dt))
  && (0 <=? hour dt) && (hour dt <=? 23)
  && (0 <=? minute dt) && (minute dt <=? 59)
  && (0 <=? second dt) && (second dt <=? 59).

(** [int(found_dict[key])] on the text of a group. *)
Definition field (s : string) : Z :=
  match Py.int_of_str s with
  | Ok z => z
  | Raise _ => 0
  end.

(** [datetime.strptime(s, "%Y%m%d%H%M%S")].  Every failure is a
    [ValueError]: no match, text left over behind the match, or a date or
    time out of range. *)
Definition strptime_YmdHMS (s : string) : result datetime :=
  match match_groups [re_Y; re_m; re_d; re_H; re_M; re_S] s with
  | Some ([tY; tm; td; tH; tM; tS], rest) =>
      if negb (Str.len rest =? 0)
      then Raise (ValueError ("unconverted data remains: " +:+ rest))
      else
        let dt := mkDatetime (field tY) (field tm) (field td) (field tH) (field tM) (field tS) in
        if valid dt then Ok dt
        else Raise (ValueError "date or time out of range")
  | _ =>
      Raise (ValueError ("time data " +:+ Py.repr_str s
                         +:+ " does not match format '%Y%m%d%H%M%S'"))
  end.

Definition pad2 (n : Z) : string :=
  String (Str.digit_char (n / 10 mod 10)) (String (Str.digit_char (n mod 10)) EmptyString).

(** Four digits, as a 14-digit timestamp writes the year. *)
Definition pad4 (n : Z) : string := pad2 (n / 100) +:+ pad2 n.

(** [dt.strftime("%Y-%m-%d %H:%M:%S UTC")].  The month, day, hour, minute
    and second are written with two digits.  The year is written by the C
    library's [strftime]; the model takes glibc's, which writes the number
    without padding it: the year 999 is written [999], not [0999]. *)
Definition strftime_iso_utc (dt : datetime) : string :=
  pretty (year dt) +:+ "-" +:+ pad2 (month dt) +:+ "-" +:+ pad2 (day dt) +:+ " "
  +:+ pad2 (hour dt) +:+ ":" +:+ pad2 (minute dt) +:+ ":" +:+ pad2 (second dt) +:+ " UTC".

End Datetime.

(** ** [_format_timestamp] *)

(** [_format_timestamp(ts)] for a [str].  The [try] block rebinds [ts] to the
    padded string before it parses, and the handler returns [ts]. *)
Definition _format_timestamp (ts : string) : string :=
  let ts := Str.ljust 14 "0" ts in
  match Datetime.strptime_YmdHMS (Str.take 14 ts) with
  | Ok dt => Datetime.strftime_iso_utc dt
  | Raise _ => ts
  end.

(** [_format_timestamp] at a call site whose argument is any JSON value: a
    value that is not a [str] has no [ljust], the [AttributeError] is
    caught and the value comes back as it is. *)
Definition _format_timestamp_json (ts : json) : json :=
  match ts with
  | JStr s => JStr (_format_timestamp s)
  | _ => ts
  end.


(** ** Dictionaries *)

Module Dict.

(** [args[key]] *)
Definition getitem (args : gmap string atom) (key : string) : result atom :=
  match args !! key with
  | Some v => Ok v
  | None => Raise (KeyError key)
  end.

(** [args.get(key, default)]; [args.get(key)] is [get args key ANone]. *)
Definition get (args : gmap string atom) (key : string) (default : atom) : atom :=
  match args !! key with
  | Some v => v
  | None => default
  end.

(** [dict(pairs)]: a later pair replaces an earlier one with its key. *)
Definition of_pairs (pairs : list (string * string)) : gmap string string :=
  foldl (fun m kv => <[kv.1 := kv.2]> m) ∅ pairs.

(** [entry.get(key, default)] *)
Definition get_str (entry : gmap string string) (key default : string) : string :=
  match entry !! key with
  | Some v => v
  | None => default
  end.

End Dict.

Module Json.

(** [type(j).__name__] *)
Definition type_name (j : json) : string :=
  match j with
  | JNull => "NoneType"
  | JBool _ => "bool"
  | JInt _ => "int"
  | JStr _ => "str"
  | JArr _ => "list"
  | JObj _ => "dict"
  end.

(** The value a decoded object holds under [key]. *)
Fixpoint assoc (key : string) (fields : list (string * json)) : option json :=
  match fields with
  | [] => None
  | (k, v) :: fields' => if String.eqb k key then Some v else assoc key fields'
  end.

(** [j.get(key, default)]: only a [dict] has the method. *)
Definition get (j : json) (key : string) (default : json) : result json :=
  match j with
  | JObj fields =>
      Ok (match assoc key fields with Some v => v | None => default end)
  | _ => Raise (AttributeError ("'" +:+ type_name j +:+ "' object has no attribute 'get'"))
  end.

(** [j[key]] on a [dict]. *)
Definition getitem (fields : list (string * json)) (key : string) : result json :=
  match assoc key fields with
  | Some v => Ok v
  | None => Raise (KeyError key)
  end.

End Json.

(** ** The archive, seen through [httpx] *)

Module Http.

(** One [client.get]: the URL, the query parameters, and the settings of
    the [AsyncClient] that sends it. *)
Record request : Type := mkRequest {
  req_url : string;
  req_params : list (string * atom);
  req_timeout : Z;
  req_follow_redirects : bool;
  req_headers : list (string * string)
}.

(** A response: its status, the message [raise_for_status] raises with
    when the status is no success, and its body. *)
Record response (A : Type) : Type := mkResponse {
  status_code : Z;
  status_error : string;
  body : A
}.
Arguments mkResponse {A} _ _ _.
Arguments status_code {A} _.
Arguments status_error {A} _.
Arguments body {A} _.

(** The rows of a CDX answer: a JSON array of arrays of strings. *)
Definition cdx_rows : Type := list (list string).

(** What the archive answers.  A [client.get] either raises (a transport
    failure) or returns a response; [response.json()] either raises or
    returns the decoded body, typed by the endpoint's contract:
    any JSON document for the availability API, rows of strings for the
    CDX API.  A page fetch has a text body. *)
Record upstream : Type := mkUpstream {
  availability_api : request -> result (response (result json));
  cdx_api : request -> result (response (result cdx_rows));
  web : request -> result (response string)
}.

(** [response.is_success] *)
Definition is_success {A} (r : response A) : bool :=
  (200 <=? status_code r) && (status_code r <=? 299).

End Http.
Import Http.

(** ** The effects of a handler *)

(** What a handler does besides computing: it returns, it raises, it
    catches with [try ... except Exception], and it awaits [client.get].
    The handlers are written once against this interface.  They are read
    in two ways: in [M], where every [await] returns or raises what the
    archive answers, and in [Task], where the task that runs the handler
    can also be interrupted at an [await]. *)
Class Effects (F : Type -> Type) : Type := {
  ret : forall {A}, A -> F A;
  bind : forall {A B}, F A -> (A -> F B) -> F B;
  raise : forall {A}, exn -> F A;
  try_except : forall {A}, F A -> (exn -> F A) -> F A;
  send : forall {A}, (upstream -> request -> result (response A)) -> request -> F (response A)
}.

Notation "'let!' x ':=' m 'in' k" := (bind m (fun x => k))
  (at level 10, x name, m at level 200, k at level 200,
   format "'[v' 'let!'  x  :=  m  'in' '/' k ']'").

Section Derived.
Context {F : Type -> Type} `{!Effects F}.

Definition lift {A} (r : result A) : F A :=
  match r with
  | Ok a => ret a
  | Raise e => raise e
  end.

(** [response.raise_for_status()] *)
Definition raise_for_status {A} (r : response A) : F unit :=
  if is_success r then ret tt else raise (HTTPStatusError (status_error r)).

End Derived.

(** *** Handlers that run to their end: upstream answers in, request log out *)

Definition M (A : Type) : Type := upstream -> list request -> result A * list request.

(** [ret], [raise] and [bind] thread the log; [try_except] is
    [try: m except Exception as e: handler(e)]; [send] is
    [await client.get(...)] against one of the three endpoints: the request
    is recorded, the archive answers. *)
#[global] Instance M_effects : Effects M := {|
  ret A a := fun _ log => (Ok a, log);
  bind A B m k := fun up log =>
    match m up log with
    | (Ok a, log') => k a up log'
    | (Raise e, log') => (Raise e, log')
    end;
  raise A e := fun _ log => (Raise e, log);
  try_except A m handler := fun up log =>
    match m up log with
    | (Ok a, log') => (Ok a, log')
    | (Raise e, log') => handler e up log'
    end;
  send A endpoint req := fun up log => (endpoint up req, log ++ [req])
|}.

(** The requests a handler issues against [up], and what it returns. *)
Definition run {A} (m : M A) (up : upstream) : result A * list request := m up [].

(** *** Handlers in a task that can be interrupted *)

(** The exceptions outside [Exception]: [asyncio.CancelledError], raised
    inside a task at the [await] it is suspended in when the task is
    cancelled, [KeyboardInterrupt] and [SystemExit].  [except Exception]
    does not catch them. *)
Inductive base_exception : Type :=
| CancelledError
| KeyboardInterrupt
| SystemExit.

(** How a call ends: it completes, with a value or an [Exception], or an
    exception outside [Exception] leaves it. *)
Inductive outcome (A : Type) : Type :=
| Completed (r : result A)
| Interrupted (b : base_exception).
Arguments Completed {A} r.
Arguments Interrupted {A} b.

(** What interrupts the awaits of one call: [interrupts n] is the exception
    raised at the [await] of the request issued after [n] others, if any. *)
Definition interrupts : Type := nat -> option base_exception.

Definition never : interrupts := fun _ => None.

Definition Task (A : Type) : Type :=
  upstream -> interrupts -> list request -> outcome A * list request.

(** As in [M], but an [await] can raise an exception outside [Exception]
    in place of the archive's answer, and neither [bind] nor
    [except Exception] stops it. *)
#[global] Instance Task_effects : Effects Task := {|
  ret A a := fun _ _ log => (Completed (Ok a), log);
  bind A B m k := fun up intr log =>
    match m up intr log with
    | (Completed (Ok a), log') => k a up intr log'
    | (Completed (Raise e), log') => (Completed (Raise e), log')
    | (Interrupted b, log') => (Interrupted b, log')
    end;
  raise A e := fun _ _ log => (Completed (Raise e), log);
  try_except A m handler := fun up intr log =>
    match m up intr log with
    | (Completed (Ok a), log') => (Completed (Ok a), log')
    | (Completed (Raise e), log') => handler e up intr log'
    | (Interrupted b, log') => (Interrupted b, log')
    end;
  send A endpoint req := fun up intr log =>
    match intr (length log) with
    | Some b => (Interrupted b, log ++ [req])
    | None => (Completed (endpoint up req), log ++ [req])
    end
|}.

(** The requests a handler issues in a task against [up] under the
    interruptions [intr], and how it ends. *)
Definition run_task {A} (m : Task A) (up : upstream) (intr : interrupts)
  : outcome A * list request := m up intr [].

(** ** Tool results *)

(** The text of a result: [json.dumps(v, indent=2)] of a value, or a
    literal message. *)
Inductive text : Type :=
| Dumps (v : json)
| Lit (s : string).

Record TextContent : Type := mkTextContent {
  type_ : string;
  text_ : text
}.

Record CallToolResult : Type := mkCallToolResult {
  content : list TextContent;
  isError : bool
}.

(** [CallToolResult(content=[TextContent(type="text", text=json.dumps(v, indent=2))])];
    [isError] defaults to [False]. *)
Definition json_result (v : json) : CallToolResult :=
  mkCallToolResult [mkTextContent "text" (Dumps v)] false.

(** [CallToolResult(content=[TextContent(type="text", text=msg)], isError=True)] *)
Definition error_result (msg : string) : CallToolResult :=
  mkCallToolResult [mkTextContent "text" (Lit msg)] true.

(** ** The endpoints *)

Definition WAYBACK_AVAILABILITY_API : string := "http://archive.org/wayback/available".
Definition WAYBACK_BASE_URL : string := "https://web.archive.org/web".

(** Modelled from the spec: the binding of [WAYBACK_CDX_API], the name
    [check_url_availability] reads the CDX endpoint by.  Line 27 of the
    module binds the endpoint under a garbled spelling of that name, the one
    [search_snapshots] reads; the value is the CDX URL of the specification's
    external interfaces, which is also the string on line 27.  Both handlers
    are modelled as reading this one constant. *)
Definition WAYBACK_CDX_API : string := "https://web.archive.org/cdx/search/cdx".

(** [httpx.AsyncClient(timeout=30)], then [client.get(url, params=params)]. *)
Definition metadata_request (url : string) (params : list (string * atom)) : request :=
  mkRequest url params 30 false [].

(** [httpx.AsyncClient(timeout=60, follow_redirects=True, headers={...})],
    then [client.get(url)]. *)
Definition content_request (url : string) : request :=
  mkRequest url [] 60 true [("User-Agent", "wayback-machine-mcp/1.0")].

(** ** [get_latest_snapshot] and [get_snapshot_at_date] *)

Section Handlers.
Context {F : Type -> Type} `{!Effects F}.

(** [not closest or not closest.get("available")]: [closest.get] is only
    called on a truthy [closest]. *)
Definition no_snapshot (closest : json) : result bool :=
  if negb (Py.truthy_json closest) then Ok true
  else
    match Json.get closest "available" JNull with
    | Ok available => Ok (negb (Py.truthy_json available))
    | Raise e => Raise e
    end.

(** [closest[key]] once [closest.get] has succeeded on it. *)
Definition closest_item (closest : json) (key : string) : result json :=
  match closest with
  | JObj fields => Json.getitem fields key
  | _ => Raise (TypeError ("'" +:+ Json.type_name closest +:+ "' object is not subscriptable"))
  end.

Definition get_latest_snapshot (args : gmap string atom) : F CallToolResult :=
  let! url := lift (Dict.getitem args "url") in
  let! response := send availability_api
                   (metadata_request WAYBACK_AVAILABILITY_API [("url", url)]) in
  let! _ := raise_for_status response in
  let! data := lift (body response) in
  let! snapshots := lift (Json.get data "archived_snapshots" (JObj [])) in
  let! closest := lift (Json.get snapshots "closest" JNull) in
  let! missing := lift (no_snapshot closest) in
  if missing : bool then
    ret (json_result (JObj [("available", JBool false);
                            ("url", json_of_atom url);
                            ("message", JStr "No snapshots found for this URL")]))
  else
    let! timestamp := lift (closest_item closest "timestamp") in
    let formatted_time := _format_timestamp_json timestamp in
    let! snapshot_url := lift (closest_item closest "url") in
    let! status := lift (Json.get closest "status" (JStr "unknown")) in
    ret (json_result (JObj [("available", JBool true);
                            ("original_url", json_of_atom url);
                            ("snapshot_url", snapshot_url);
                            ("timestamp", timestamp);
                            ("formatted_time", formatted_time);
                            ("status", status)])).

Definition get_snapshot_at_date (args : gmap string atom) : F CallToolResult :=
  let! url := lift (Dict.getitem args "url") in
  let! timestamp := lift (Dict.getitem args "timestamp") in
  let! response := send availability_api
                   (metadata_request WAYBACK_AVAILABILITY_API
                      [("url", url); ("timestamp", timestamp)]) in
  let! _ := raise_for_status response in
  let! data := lift (body response) in
  let! snapshots := lift (Json.get data "archived_snapshots" (JObj [])) in
  let! closest := lift (Json.get snapshots "closest" JNull) in
  let! missing := lift (no_snapshot closest) in
  if missing : bool then
    ret (json_result (JObj [("available", JBool false);
                            ("url", json_of_atom url);
                            ("requested_timestamp", json_of_atom timestamp);
                            ("message", JStr "No snapshots found near this date")]))
  else
    let! snap_timestamp := lift (closest_item closest "timestamp") in
    let! snapshot_url := lift (closest_item closest "url") in
    let! status := lift (Json.get closest "status" (JStr "unknown")) in
    ret (json_result (JObj [("available", JBool true);
                            ("original_url", json_of_atom url);
                            ("requested_timestamp", json_of_atom timestamp);
                            ("snapshot_url", snapshot_url);
                            ("actual_timestamp", snap_timestamp);
                            ("actual_formatted_time", _format_timestamp_json snap_timestamp);
                            ("status", status)])).

(** ** [search_snapshots] *)

(** [min(int(args.get("limit", 10)), 100)] *)
Definition search_limit (args : gmap string atom) : result Z :=
  match Py.int (Dict.get args "limit" (AInt 10)) with
  | Ok n => Ok (Z.min n 100)
  | Raise e => Raise e
  end.

(** [if value: params[key] = f(value)]: a new key goes to the end. *)
Definition add_if (value : atom) (key : string) (param : atom)
    (params : list (string * atom)) : list (string * atom) :=
  if Py.truthy value then params ++ [(key, param)] else params.

Definition search_params (url : atom) (limit : Z) (from_date to_date status_code : atom)
  : list (string * atom) :=
  let params := [("url", url);
                 ("output", AStr "json");
                 ("fl", AStr "timestamp,original,statuscode,mimetype,length");
                 ("limit", AInt limit)] in
  let params := add_if from_date "from" from_date params in
  let params := add_if to_date "to" to_date params in
  add_if status_code "filter" (AStr ("statuscode:" +:+ Py.str status_code)) params.

(** [zip(headers, row)]: pairs up to the shorter of the two. *)
Fixpoint zip (headers row : list string) : list (string * string) :=
  match headers, row with
  | h :: headers', v :: row' => (h, v) :: zip headers' row'
  | _, _ => []
  end.

(** The body of the [for row in rows] loop: the record appended for [row]. *)
Definition snapshot_record (headers row : list string) : json :=
  let entry := Dict.of_pairs (zip headers row) in
  let ts := Dict.get_str entry "timestamp" EmptyString in
  JObj [("timestamp", JStr ts);
        ("formatted_time", JStr (_format_timestamp ts));
        ("snapshot_url",
          JStr (WAYBACK_BASE_URL +:+ "/" +:+ ts +:+ "/"
                +:+ Dict.get_str entry "original" EmptyString));
        ("original_url", JStr (Dict.get_str entry "original" EmptyString));
        ("status_code", JStr (Dict.get_str entry "statuscode" EmptyString));
        ("mime_type", JStr (Dict.get_str entry "mimetype" EmptyString));
        ("size_bytes", JStr (Dict.get_str entry "length" EmptyString))].

(** [len(l)] of a list. *)
Definition len {A} (l : list A) : Z := Z.of_nat (length l).

(** Truth value of a list: [if raw:]. *)
Definition nonempty {A} (l : list A) : bool :=
  match l with
  | [] => false
  | _ :: _ => true
  end.

(** What [search_snapshots] makes of the decoded CDX answer [raw]:
    [raw[0]] is read only behind the length test, so it never fails. *)
Definition search_result (url : atom) (raw : cdx_rows) : json :=
  if negb (nonempty raw) || (len raw <? 2) then
    JObj [("url", json_of_atom url); ("total_found", JInt 0); ("snapshots", JArr [])]
  else
    let headers := hd [] raw in
    let rows := tl raw in
    let snapshots := map (snapshot_record headers) rows in
    JObj [("url", json_of_atom url);
          ("total_found", JInt (len snapshots));
          ("snapshots", JArr snapshots)].

Definition search_snapshots (args : gmap string atom) : F CallToolResult :=
  let! url := lift (Dict.getitem args "url") in
  let! limit := lift (search_limit args) in
  let from_date := Dict.get args "from_date" ANone in
  let to_date := Dict.get args "to_date" ANone in
  let status_code := Dict.get args "status_code" ANone in
  let params := search_params url limit from_date to_date status_code in
  let! response := send cdx_api (metadata_request WAYBACK_CDX_API params) in
  let! _ := raise_for_status response in
  let! raw := lift (body response) in
  ret (json_result (search_result url raw)).

(** ** [get_snapshot_content] *)

Definition MAX_CHARS : Z := 50000.

(** The URL [get_snapshot_content] fetches: with a truthy [raw] and a
    [snapshot_url] that holds [/web/], the [id_] flag goes behind the first
    path segment after the first [/web/], when a [/] ends that segment. *)
Definition fetch_url (raw snapshot_url : atom) : result atom :=
  if Py.truthy raw then
    match snapshot_url with
    | AStr s =>
        if Str.contains "/web/" s then
          match Str.split_once "/web/" s with
          | Some (parts0, parts1) =>
              match Str.split_once "/" parts1 with
              | Some (ts, rest) =>
                  Ok (AStr (parts0 +:+ "/web/" +:+ ts +:+ "id_/" +:+ rest))
              | None => Ok snapshot_url
              end
          | None => Raise (IndexError "list index out of range")
          end
        else Ok snapshot_url
    | _ =>
        Raise (TypeError ("argument of type '" +:+ Py.type_name snapshot_url
                          +:+ "' is not iterable"))
    end
  else Ok snapshot_url.

(** [client.get(snapshot_url)]: [httpx] takes a [str] for the URL. *)
Definition fetch (snapshot_url : atom) : F (response string) :=
  match snapshot_url with
  | AStr s => send web (content_request s)
  | _ =>
      raise (TypeError ("Invalid type for url.  Expected str or httpx.URL, got <class '"
                        +:+ Py.type_name snapshot_url +:+ "'>: " +:+ Py.repr snapshot_url))
  end.

(** The result built from the fetched text. *)
Definition content_result (snapshot_url : atom) (content : string) : json :=
  let truncated := MAX_CHARS <? Str.len content in
  let content := if truncated then Str.take MAX_CHARS content else content in
  JObj [("snapshot_url", json_of_atom snapshot_url);
        ("content_length", JInt (Str.len content));
        ("truncated", JBool truncated);
        ("content", JStr content)].

Definition get_snapshot_content (args : gmap string atom) : F CallToolResult :=
  let! snapshot_url := lift (Dict.getitem args "snapshot_url") in
  let raw := Dict.get args "raw" (ABool false) in
  let! snapshot_url := lift (fetch_url raw snapshot_url) in
  let! response := fetch snapshot_url in
  let! _ := raise_for_status response in
  let content := body response in
  ret (json_result (content_result snapshot_url content)).

(** ** [check_url_availability] *)

(** [response.json() if response.status_code == 200 else []] *)
Definition rows_if_200 (r : response (result cdx_rows)) : result cdx_rows :=
  if status_code r =? 200 then body r else Ok [].

(** [data[1][0]] *)
Definition second_row_first_cell (data : cdx_rows) : result string :=
  match data with
  | _ :: row :: _ =>
      match row with
      | ts :: _ => Ok ts
      | [] => Raise (IndexError "list index out of range")
      end
  | _ => Raise (IndexError "list index out of range")
  end.

(** The snapshot read off a CDX answer: [None] unless the answer is
    truthy and longer than one row. *)
Definition snapshot_of (data : cdx_rows) : result json :=
  if nonempty data && (1 <? len data) then
    match second_row_first_cell data with
    | Ok ts => Ok (JObj [("timestamp", JStr ts); ("formatted_time", JStr (_format_timestamp ts))])
    | Raise e => Raise e
    end
  else Ok JNull.

(** [x is not None] *)
Definition is_not_None (j : json) : bool :=
  match j with
  | JNull => false
  | _ => true
  end.

(** The three CDX requests of [check_url_availability]: the page count, the
    earliest capture, the latest capture. *)
Definition count_request (url : atom) : request :=
  metadata_request WAYBACK_CDX_API
    [("url", url); ("output", AStr "json"); ("fl", AStr "timestamp");
     ("limit", AInt 1); ("showNumPages", AStr "true")].

Definition first_request (url : atom) : request :=
  metadata_request WAYBACK_CDX_API
    [("url", url); ("output", AStr "json"); ("fl", AStr "timestamp,statuscode");
     ("limit", AInt 1)].

Definition last_request (url : atom) : request :=
  metadata_request WAYBACK_CDX_API
    [("url", url); ("output", AStr "json"); ("fl", AStr "timestamp,statuscode");
     ("limit", AInt 1); ("fastLatest", AStr "true")].

Definition check_url_availability (args : gmap string atom) : F CallToolResult :=
  let! url := lift (Dict.getitem args "url") in
  let! count_response := send cdx_api (count_request url) in
  let! first_response := send cdx_api (first_request url) in
  let! last_response := send cdx_api (last_request url) in
  let! first_data := lift (rows_if_200 first_response) in
  let! last_data := lift (rows_if_200 last_response) in
  let! first_snapshot := lift (snapshot_of first_data) in
  let! last_snapshot := lift (snapshot_of last_data) in
  ret (json_result (JObj [("url", json_of_atom url);
                          ("is_archived", JBool (is_not_None first_snapshot));
                          ("first_snapshot", first_snapshot);
                          ("latest_snapshot", last_snapshot);
                          ("wayback_url",
                            JStr ("https://web.archive.org/web/*/" +:+ Py.str url))])).

(** ** [call_tool] *)

Definition dispatch (name : string) (arguments : gmap string atom) : F CallToolResult :=
  if String.eqb name "get_latest_snapshot" then get_latest_snapshot arguments
  else if String.eqb name "get_snapshot_at_date" then get_snapshot_at_date arguments
  else if String.eqb name "search_snapshots" then search_snapshots arguments
  else if String.eqb name "get_snapshot_content" then get_snapshot_content arguments
  else if String.eqb name "check_url_availability" then check_url_availability arguments
  else ret (error_result ("Unknown tool: " +:+ name)).

Definition call_tool (name : string) (arguments : gmap string atom) : F CallToolResult :=
  try_except (dispatch name arguments)
    (fun e => ret (error_result ("Error: " +:+ Py.str_exn e))).

End Handlers.

(** ** [list_tools] *)

(** [mcp.types.Tool]: a name, a description and the JSON schema of the
    arguments. *)
Record Tool : Type := mkTool {
  tool_name : string;
  tool_description : string;
  inputSchema : json
}.

(** A schema entry [{"type": ty, "description": description}]. *)
Definition schema_property (ty description : string) : json :=
  JObj [("type", JStr ty); ("description", JStr description)].

(** A schema entry [{"type": ty, "description": description, "default": default}]. *)
Definition schema_property_default (ty description : string) (default : json) : json :=
  JObj [("type", JStr ty); ("description", JStr description); ("default", default)].

(** [{"type": "object", "properties": properties, "required": required}] *)
Definition object_schema (properties : list (string * json)) (required : list string) : json :=
  JObj [("type", JStr "object");
        ("properties", JObj properties);
        ("required", JArr (map JStr required))].

Definition list_tools : list Tool :=
  [mkTool "get_latest_snapshot"
     ("Get the most recent archived snapshot of a URL from the Wayback Machine. "
      +:+ "Returns the snapshot URL, timestamp, and HTTP status.")
     (object_schema
        [("url",
           schema_property "string"
             "The URL to look up in the Wayback Machine (e.g. 'example.com' or 'https://example.com/page')")]
        ["url"]);
   mkTool "get_snapshot_at_date"
     ("Get the closest archived snapshot of a URL to a specific date/time. "
      +:+ "Returns the snapshot URL, timestamp, and HTTP status.")
     (object_schema
        [("url", schema_property "string" "The URL to look up in the Wayback Machine");
         ("timestamp",
           schema_property "string"
             ("The target date/time in YYYYMMDdhhmmss format (1-14 digits). "
              +:+ "Examples: '20230101' for Jan 1 2023, '20230101120000' for noon on Jan 1 2023."))]
        ["url"; "timestamp"]);
   mkTool "search_snapshots"
     ("Search the Wayback Machine CDX index for all archived snapshots of a URL. "
      +:+ "Returns a list of snapshots with timestamps, status codes, and MIME types. "
      +:+ "Supports date range filtering and result limits.")
     (object_schema
        [("url",
           schema_property "string"
             "The URL to search for (supports wildcards with '*', e.g. 'example.com/*')");
         ("from_date",
           schema_property "string" "Start date filter in YYYYMMDD format (optional)");
         ("to_date",
           schema_property "string" "End date filter in YYYYMMDD format (optional)");
         ("limit",
           schema_property_default "integer"
             "Maximum number of results to return (default: 10, max: 100)" (JInt 10));
         ("status_code",
           schema_property "string"
             "Filter by HTTP status code (e.g. '200', '404'). Optional.")]
        ["url"]);
   mkTool "get_snapshot_content"
     ("Fetch the raw content of a specific Wayback Machine snapshot. "
      +:+ "Returns the page content as text. Use get_latest_snapshot or search_snapshots first to get a snapshot URL.")
     (object_schema
        [("snapshot_url",
           schema_property "string"
             "The full Wayback Machine snapshot URL (e.g. 'https://web.archive.org/web/20230101120000/https://example.com')");
         ("raw",
           schema_property_default "boolean"
             "If true, fetch the raw archived content without Wayback Machine toolbar (default: false)"
             (JBool false))]
        ["snapshot_url"]);
   mkTool "check_url_availability"
     ("Check whether a URL has been archived in the Wayback Machine at all, "
      +:+ "and how many snapshots are available.")
     (object_schema
        [("url", schema_property "string" "The URL to check availability for")]
        ["url"])].

(** ** Vocabulary of the statements and proofs *)

(** The names [list_tools] registers. *)
Definition tool_names : list string :=
  ["get_latest_snapshot"; "get_snapshot_at_date"; "search_snapshots";
   "get_snapshot_content"; "check_url_availability"].

(** An upstream failure and its message: a [client.get] that raises, or a
    response whose status is not in 200..299. *)
Inductive fails {A} : result (response A) -> string -> Prop :=
| fails_transport (e : exn) : fails (Raise e) (Py.str_exn e)
| fails_status (r : response A) : is_success r = false -> fails (Ok r) (status_error r).

(** [call_tool] reports [msg]: its result is the error-flagged one with the
    text [Error: msg], and [req] is the one request it has issued. *)
Definition reports (name : string) (args : gmap string atom) (up : upstream)
    (req : request) (msg : string) : Prop :=
  run (call_tool name args) up = (Ok (error_result ("Error: " +:+ msg)), [req]).

(** The value a request sends for the query parameter [key]. *)
Fixpoint param (key : string) (params : list (string * atom)) : option atom :=
  match params with
  | [] => None
  | (k, v) :: params' => if String.eqb k key then Some v else param key params'
  end.

(** The cell of [row] under the header name [k], as zipping the header
    names onto the row positionally gives it: the cell at the last position
    where [headers] names [k] and [row] has a cell, the empty string when
    there is no such position. *)
Definition cell_under (headers row : list string) (k v : string) : Prop :=
  (exists j : nat,
      headers !! j = Some k /\ row !! j = Some v
      /\ forall j' : nat, (j < j')%nat -> headers !! j' = Some k -> row !! j' = None)
  \/ ((forall j : nat, headers !! j = Some k -> row !! j = None) /\ v = EmptyString).




(** The 14-digit timestamp of a date and time: [YYYYMMDDHHMMSS]. *)
Definition compact (dt : Datetime.datetime) : string :=
  Datetime.pad4 (Datetime.year dt) +:+ Datetime.pad2 (Datetime.month dt)
  +:+ Datetime.pad2 (Datetime.day dt) +:+ Datetime.pad2 (Datetime.hour dt)
  +:+ Datetime.pad2 (Datetime.minute dt) +:+ Datetime.pad2 (Datetime.second dt).

(** A check on one group [g] of the pattern and the text [f] of a field:
    the first alternative of [g] that matches at the start of [f] matches
    all of [f], and the alternatives before it are no longer than [f], so
    that what follows [f] in the input cannot make them match. *)
Fixpoint field_ok (g : Datetime.group) (f : string) : bool :=
  match g with
  | [] => false
  | a :: g' =>
      match Datetime.match_alternative a f with
      | Some (_, rest) => Str.len rest =? 0
      | None => (len a <=? Str.len f) && field_ok g' f
      end
  end.

(** The check of a field with the value [v], written as [render v]: the
    group accepts the text and [int] reads [v] back from it. *)
Definition field_round_trip (g : Datetime.group) (render : Z -> string) (v : Z) : bool :=
  field_ok g (render v) && (Datetime.field (render v) =? v).

(** A CDX answer [check_url_availability] can read: when its status is
    200, its body decodes to rows, and a row behind the header row has a
    first cell. *)
Definition readable (r : response (result cdx_rows)) : Prop :=
  status_code r = 200 ->
  exists rows, body r = Ok rows /\ forall row, rows !! 1%nat = Some row -> row <> [].

(** The argument names a tool's schema lists under [required], in order. *)
Definition required_keys (t : Tool) : list string :=
  match inputSchema t with
  | JObj schema =>
      match Json.assoc "required" schema with
      | Some (JArr keys) =>
          omap (fun k => match k with JStr key => Some key | _ => None end) keys
      | _ => []
      end
  | _ => []
  end.

(** The [default] a tool's schema declares for the argument [key]. *)
Definition schema_default (t : Tool) (key : string) : option json :=
  match inputSchema t with
  | JObj schema =>
      match Json.assoc "properties" schema with
      | Some (JObj properties) =>
          match Json.assoc key properties with
          | Some (JObj entry) => Json.assoc "default" entry
          | _ => None
          end
      | _ => None
      end
  | _ => None
  end.

(** A bound on what a computation does: from any log it adds at most [n]
    requests, each of them satisfies [P], and a value it returns
    satisfies [Q]. *)
Definition bounded {A} (n : nat) (P : request -> Prop) (Q : A -> Prop) (m : M A) : Prop :=
  forall up log, exists new,
    snd (m up log) = log ++ new
    /\ (length new <= n)%nat
    /\ Forall P new
    /\ forall a, fst (m up log) = Ok a -> Q a.

(** The requests a tool may issue: the two availability tools ask the
    availability API, [search_snapshots] and [check_url_availability] ask
    the CDX API, both with the settings of a metadata request, and
    [get_snapshot_content] fetches one page with the settings of a
    content request. *)
Definition allowed_request (name : string) (req : request) : Prop :=
  (name ∈ ["get_latest_snapshot"; "get_snapshot_at_date"]
   /\ exists params, req = metadata_request WAYBACK_AVAILABILITY_API params)
  \/ (name ∈ ["search_snapshots"; "check_url_availability"]
      /\ exists params, req = metadata_request WAYBACK_CDX_API params)
  \/ (name = "get_snapshot_content" /\ exists url, req = content_request url).

(** A normal result: one text block holding dumped JSON, not flagged. *)
Definition is_json_result (r : CallToolResult) : Prop := exists v, r = json_result v.

(** What [check_url_availability] reports for one CDX answer: the first
    cell of the row behind the header row with its rendering, when the
    answer has status 200 and such a row; null when the status is not 200
    or the answer has fewer than two rows. *)
Definition snapshot_from (r : response (result cdx_rows)) (snapshot : json) : Prop :=
  (status_code r = 200
   /\ exists header ts cells rest,
        body r = Ok (header :: (ts :: cells) :: rest)
        /\ snapshot = JObj [("timestamp", JStr ts);
                            ("formatted_time", JStr (_format_timestamp ts))])
  \/ ((status_code r <> 200
       \/ exists rows, body r = Ok rows /\ (length rows < 2)%nat)
      /\ snapshot = JNull).

(** [record[key]] of a JSON object. *)
Definition json_field (key : string) (record : json) : option json :=
  match record with
  | JObj fields => Json.assoc key fields
  | _ => None
  end.


(** The first interruption among the awaits at the positions [start],
    ..., [start + count - 1]: its position and the exception raised. *)
Fixpoint first_interrupt (intr : interrupts) (start count : nat)
  : option (nat * base_exception) :=
  match count with
  | O => None
  | S count' =>
      match intr start with
      | Some b => Some (start, b)
      | None => first_interrupt intr (S start) count'
      end
  end.

(** What a task does, read off what the same code does when it runs to its
    end from a log of [start] requests: the same, when none of the awaits of
    its requests is interrupted; otherwise the requests up to the first
    interrupted await, and that interruption. *)
Definition interrupted {A} (intr : interrupts) (start : nat)
    (ran : result A * list request) : outcome A * list request :=
  match first_interrupt intr start (length ran.2 - start) with
  | Some (n, b) => (Interrupted b, take (S n) ran.2)
  | None => (Completed ran.1, ran.2)
  end.

(** A handler read as a task [t] and as a run [m]: from every log, the run
    extends the log and the task is the run, interrupted. *)
Definition task_of {A} (t : Task A) (m : M A) : Prop :=
  forall up intr log,
    (exists new, snd (m up log) = log ++ new)
    /\ t up intr log = interrupted intr (length log) (m up log).

(** ** Sample archives and arguments *)

Definition example_args : gmap string atom := {[ "url" := AStr "example.com" ]}.

(** An archive that answers every request with status 503. *)
Definition archive_down : upstream :=
  let msg := "Server error '503 Service Unavailable'" in
  mkUpstream
    (fun _ => Ok (mkResponse 503 msg (Raise (JSONDecodeError "Expecting value: line 1 column 1 (char 0)"))))
    (fun _ => Ok (mkResponse 503 msg (Raise (JSONDecodeError "Expecting value: line 1 column 1 (char 0)"))))
    (fun _ => Ok (mkResponse 503 msg "<html>Service Unavailable</html>")).

(** An archive that holds one capture of every page. *)
Definition capture : list (string * json) :=
  [("status", JStr "200");
   ("available", JBool true);
   ("url", JStr "http://web.archive.org/web/20230101120000/http://example.com");
   ("timestamp", JStr "20230101120000")].

Definition availability_data : list (string * json) :=
  [("url", JStr "example.com");
   ("archived_snapshots", JObj [("closest", JObj capture)])].

Definition availability_response : response (result json) :=
  mkResponse 200 EmptyString (Ok (JObj availability_data)).

Definition archive_up : upstream :=
  mkUpstream
    (fun _ => Ok availability_response)
    (fun _ => Ok (mkResponse 200 EmptyString
       (Ok [["timestamp"; "statuscode"]; ["20230101120000"; "200"]])))
    (fun _ => Ok (mkResponse 200 EmptyString "<html>Example Domain</html>")).

(** An archive that has no capture of any page. *)
Definition archive_without_captures : upstream :=
  mkUpstream
    (fun _ => Ok (mkResponse 200 EmptyString
                    (Ok (JObj [("url", JStr "example.com"); ("archived_snapshots", JObj [])]))))
    (fun _ => Ok (mkResponse 200 EmptyString (Ok [])))
    (fun _ => Ok (mkResponse 404 "Client error '404 Not Found'" EmptyString)).

(** A page of 50,001 characters, and an archive that serves it. *)
Definition long_page : string := Str.replicate (Z.to_nat 50001) "a".

Definition long_response : response string := mkResponse 200 EmptyString long_page.

Definition archive_long : upstream :=
  mkUpstream (availability_api archive_up) (cdx_api archive_up) (fun _ => Ok long_response).

Definition content_args : gmap string atom :=
  {[ "snapshot_url" := AStr "https://web.archive.org/web/20230101120000/https://example.com" ]}.

Definition raw_args : gmap string atom := <["raw" := ABool true]> content_args.

(** A CDX index of two captures, and an archive that answers every CDX
    request with it; [archive_empty] answers with the header row alone. *)
Definition index_rows : cdx_rows :=
  [["timestamp"; "original"; "statuscode"; "mimetype"; "length"];
   ["20230101120000"; "http://example.com/"; "200"; "text/html"; "1234"];
   ["20230202"; "http://example.com/"; "301"; "text/html"; "100"]].

Definition index_response : response (result cdx_rows) :=
  mkResponse 200 EmptyString (Ok index_rows).

Definition archive_index : upstream :=
  mkUpstream (availability_api archive_up) (fun _ => Ok index_response) (web archive_up).

Definition archive_empty : upstream :=
  mkUpstream (availability_api archive_up)
    (fun _ => Ok (mkResponse 200 EmptyString
                    (Ok [["timestamp"; "original"; "statuscode"; "mimetype"; "length"]])))
    (web archive_up).

(** The tool [list_tools] registers under [name]. *)
Definition the_tool (name : string) : Tool :=
  default (mkTool name EmptyString JNull)
    (List.find (fun t => String.eqb (tool_name t) name) list_tools).

(** [archive_up], but with the page count call answered by a 503. *)
Definition archive_without_count : upstream :=
  mkUpstream (availability_api archive_up)
    (fun req =>
       match param "showNumPages" (req_params req) with
       | Some _ =>
           Ok (mkResponse 503 "Server error '503 Service Unavailable'"
                 (Raise (JSONDecodeError "Expecting value: line 1 column 1 (char 0)")))
       | None => cdx_api archive_up req
       end)
    (web archive_up).

(** An archive whose CDX index answers with a row that has no cells. *)
Definition archive_blank_row : upstream :=
  mkUpstream (availability_api archive_up)
    (fun _ => Ok (mkResponse 200 EmptyString (Ok [["timestamp"; "statuscode"]; []])))
    (web archive_up).

(** An archive whose CDX index answers with status 203, the status of an
    answer a proxy has passed on, and the rows of one capture. *)
Definition archive_proxied : upstream :=
  mkUpstream (availability_api archive_up)
    (fun _ => Ok (mkResponse 203 EmptyString
                    (Ok [["timestamp"; "statuscode"]; ["20230101120000"; "200"]])))
    (web archive_up).


(** The task is cancelled while it awaits the answer to its first request. *)
Definition cancelled_at_first : interrupts :=
  fun n => match n with O => Some CancelledError | S _ => None end.

(** * Properties *)

(** ** Sample runs of the built-in conversions and of [_format_timestamp] *)

Example int_of_str_examples :
  Py.int_of_str " 12 " = Ok 12 /\ Py.int_of_str "-1_000" = Ok (-1000)
  /\ Py.int_of_str "+7" = Ok 7 /\ Py.int_of_str "007" = Ok 7
  /\ Py.int_of_str "1__0" = Raise (ValueError "invalid literal for int() with base 10: '1__0'")
  /\ Py.int_of_str "_1" = Raise (ValueError "invalid literal for int() with base 10: '_1'")
  /\ Py.int_of_str "ten" = Raise (ValueError "invalid literal for int() with base 10: 'ten'")
  /\ Py.str_exn (KeyError "url") = "'url'".
Proof. vm_compute. repeat split; reflexivity. Qed.

Example format_timestamp_examples :
  _format_timestamp "20230101120000" = "2023-01-01 12:00:00 UTC"
  /\ _format_timestamp "2023121" = "2023-12-10 00:00:00 UTC"
  /\ _format_timestamp "20240229235959" = "2024-02-29 23:59:59 UTC"
  /\ _format_timestamp "20230229000000" = "20230229000000"
  /\ _format_timestamp "202312 5101010" = "2023-12-05 10:10:10 UTC"
  /\ _format_timestamp "20231301000000" = "20231301000000"
  /\ _format_timestamp "20230101120060" = "20230101120060"
  /\ _format_timestamp "2023010112000099" = "2023-01-01 12:00:00 UTC"
  /\ _format_timestamp "2023" = "20230000000000"
  /\ _format_timestamp "abc" = "abc00000000000".
Proof. vm_compute. repeat split; reflexivity. Qed.

(** ** Facts about strings *)

Module StrFacts.
Import Str.

Lemma app_nil_l s : EmptyString +:+ s = s.
Proof. reflexivity. Qed.

Lemma app_cons c s t : String c s +:+ t = String c (s +:+ t).
Proof. reflexivity. Qed.

Ltac str_simpl :=
  rewrite ?app_cons, ?app_nil_l in *;
  cbn [len take replicate strip_prefix split_once contains] in *.

Lemma len_nonneg s : 0 <= len s.
Proof. induction s; str_simpl; lia. Qed.

Lemma len_app s t : len (s +:+ t) = len s + len t.
Proof. induction s; str_simpl; lia. Qed.

Lemma app_assoc s t u : (s +:+ t) +:+ u = s +:+ (t +:+ u).
Proof. induction s; str_simpl; congruence. Qed.

Lemma app_empty_r s : s +:+ EmptyString = s.
Proof. induction s; str_simpl; congruence. Qed.

Lemma len_replicate n c : len (replicate n c) = Z.of_nat n.
Proof. induction n; str_simpl; lia. Qed.

Lemma take_prefix n s : exists rest, s = take n s +:+ rest.
Proof.
  revert n; induction s as [|c s IH]; intros n; str_simpl.
  - exists EmptyString; reflexivity.
  - destruct (n <=? 0).
    + eexists; reflexivity.
    + destruct (IH (n - 1)) as [rest E]. exists rest. str_simpl. congruence.
Qed.

Lemma len_take n s : 0 <= n -> len (take n s) = Z.min n (len s).
Proof.
  revert n; induction s as [|c s IH]; intros n Hn; str_simpl.
  - lia.
  - destruct (Z.leb_spec n 0); str_simpl.
    + pose proof (len_nonneg s). lia.
    + rewrite IH by lia. lia.
Qed.

Lemma take_all n s : len s <= n -> take n s = s.
Proof.
  revert n; induction s as [|c s IH]; intros n Hn; str_simpl; [reflexivity|].
  pose proof (len_nonneg s).
  destruct (Z.leb_spec n 0); [lia|]. rewrite IH by lia. reflexivity.
Qed.

Lemma strip_prefix_app p b : strip_prefix p (p +:+ b) = Some b.
Proof.
  induction p as [|c p IH]; str_simpl; [by destruct b|].
  by rewrite Ascii.eqb_refl.
Qed.

(** A prefix no longer than [u] is found in [u +:+ v] only if it is found
    in [u]. *)
Lemma strip_prefix_within p u v :
  len p <= len u -> strip_prefix p u = None -> strip_prefix p (u +:+ v) = None.
Proof.
  revert u; induction p as [|c p IH]; intros u Hlen Hu.
  - by destruct u.
  - destruct u as [|d u]; str_simpl.
    + pose proof (len_nonneg p). lia.
    + destruct (Ascii.eqb c d); [|reflexivity]. apply IH; [lia|assumption].
Qed.

Lemma contains_split_once sep s :
  contains sep s = match split_once sep s with Some _ => true | None => false end.
Proof.
  induction s as [|c s IH]; str_simpl.
  - by destruct (strip_prefix sep EmptyString).
  - destruct (strip_prefix sep (String c s)); [reflexivity|].
    rewrite IH. by destruct (split_once sep s) as [[? ?]|].
Qed.

Lemma split_once_eq sep s :
  split_once sep s =
  match strip_prefix sep s with
  | Some rest => Some (EmptyString, rest)
  | None =>
      match s with
      | EmptyString => None
      | String c s' =>
          match split_once sep s' with
          | Some (a, b) => Some (String c a, b)
          | None => None
          end
      end
  end.
Proof. by destruct s. Qed.

Lemma contains_eq sep s :
  contains sep s =
  match strip_prefix sep s with
  | Some _ => true
  | None =>
      match s with
      | EmptyString => false
      | String _ s' => contains sep s'
      end
  end.
Proof. by destruct s. Qed.

(** Splitting at the leftmost occurrence: when the separator
    [sep0 +:+ c] does not occur in [a +:+ sep0], its first occurrence in
    [a +:+ sep0 +:+ c +:+ b] is the one behind [a]. *)
Lemma split_once_leftmost sep0 c a b :
  contains (sep0 +:+ String c EmptyString) (a +:+ sep0) = false ->
  split_once (sep0 +:+ String c EmptyString)
    (a +:+ (sep0 +:+ String c EmptyString) +:+ b) = Some (a, b).
Proof.
  set (sep := sep0 +:+ String c EmptyString).
  induction a as [|x a IH]; intros Hno.
  - rewrite app_nil_l, split_once_eq, strip_prefix_app. reflexivity.
  - rewrite app_cons, contains_eq in Hno.
    destruct (strip_prefix sep (String x (a +:+ sep0))) eqn:Hp; [discriminate|].
    rewrite app_cons, split_once_eq.
    replace (String x (a +:+ sep +:+ b))
      with (String x (a +:+ sep0) +:+ (String c EmptyString +:+ b)).
    + rewrite strip_prefix_within; [| |exact Hp].
      * by rewrite (IH Hno).
      * unfold sep. rewrite len_app. cbn [len]. rewrite len_app.
        pose proof (len_nonneg a). lia.
    + unfold sep. rewrite app_cons. by rewrite !app_assoc.
Qed.

Lemma contains_leftmost sep0 c a b :
  contains (sep0 +:+ String c EmptyString) (a +:+ sep0) = false ->
  contains (sep0 +:+ String c EmptyString)
    (a +:+ (sep0 +:+ String c EmptyString) +:+ b) = true.
Proof.
  intros H. rewrite contains_split_once. by rewrite (split_once_leftmost _ _ _ _ H).
Qed.

Lemma split_once_absent sep s : contains sep s = false -> split_once sep s = None.
Proof.
  rewrite contains_split_once. by destruct (split_once sep s).
Qed.

End StrFacts.

(** ** Running the monad *)

Lemma run_bind {A B} (m : M A) (k : A -> M B) up log :
  bind m k up log =
  match m up log with
  | (Ok a, log') => k a up log'
  | (Raise e, log') => (Raise e, log')
  end.
Proof. reflexivity. Qed.

Lemma run_lift_ok {A B} (a : A) (k : A -> M B) up log :
  bind (lift (Ok a)) k up log = k a up log.
Proof. reflexivity. Qed.

Lemma run_lift_raise {A B} e (k : A -> M B) up log :
  bind (lift (Raise e)) k up log = (Raise e, log).
Proof. reflexivity. Qed.

Lemma run_send {A B} (endpoint : upstream -> request -> result (response A)) req
    (k : response A -> M B) up log :
  bind (send endpoint req) k up log =
  match endpoint up req with
  | Ok r => k r up (log ++ [req])
  | Raise e => (Raise e, log ++ [req])
  end.
Proof. cbn. by destruct (endpoint up req). Qed.

Lemma run_raise_for_status {A B} (r : response A) (k : unit -> M B) up log :
  bind (raise_for_status r) k up log =
  if is_success r then k tt up log else (Raise (HTTPStatusError (status_error r)), log).
Proof. unfold raise_for_status. by destruct (is_success r). Qed.

Lemma run_try_except {A} (m : M A) (h : exn -> M A) up log :
  try_except m h up log =
  match m up log with
  | (Ok a, log') => (Ok a, log')
  | (Raise e, log') => h e up log'
  end.
Proof. reflexivity. Qed.

Ltac run_handler :=
  repeat first
    [ rewrite run_lift_ok
    | rewrite run_lift_raise
    | rewrite run_send
    | rewrite run_raise_for_status
    | rewrite run_try_except ].

Lemma call_tool_of_dispatch name args up :
  run (call_tool name args) up =
  match run (dispatch name args) up with
  | (Ok r, log) => (Ok r, log)
  | (Raise e, log) => (Ok (error_result ("Error: " +:+ Py.str_exn e)), log)
  end.
Proof. unfold run, call_tool. rewrite run_try_except. by destruct (@dispatch M _ name args up []) as [[?|?] ?]. Qed.

Lemma fails_inv {A} (answer : result (response A)) msg :
  fails answer msg ->
  match answer with
  | Raise e => msg = Py.str_exn e
  | Ok r => is_success r = false /\ msg = status_error r
  end.
Proof. by destruct 1. Qed.

Lemma get_latest_snapshot_failure args up url msg :
  args !! "url" = Some url ->
  fails (availability_api up (metadata_request WAYBACK_AVAILABILITY_API [("url", url)])) msg ->
  exists e, run (get_latest_snapshot args) up
            = (Raise e, [metadata_request WAYBACK_AVAILABILITY_API [("url", url)]])
            /\ Py.str_exn e = msg.
Proof.
  intros Hurl Hf. apply fails_inv in Hf.
  unfold run, get_latest_snapshot, Dict.getitem. rewrite Hurl. run_handler.
  destruct (availability_api up _) as [r|e].
  - destruct Hf as [Hs ->]. run_handler. rewrite Hs. by eexists.
  - subst. by eexists.
Qed.

Lemma get_snapshot_at_date_failure args up url timestamp msg :
  args !! "url" = Some url ->
  args !! "timestamp" = Some timestamp ->
  fails (availability_api up
           (metadata_request WAYBACK_AVAILABILITY_API [("url", url); ("timestamp", timestamp)])) msg ->
  exists e, run (get_snapshot_at_date args) up
            = (Raise e, [metadata_request WAYBACK_AVAILABILITY_API
                           [("url", url); ("timestamp", timestamp)]])
            /\ Py.str_exn e = msg.
Proof.
  intros Hurl Hts Hf. apply fails_inv in Hf.
  unfold run, get_snapshot_at_date, Dict.getitem. rewrite Hurl, Hts. run_handler.
  destruct (availability_api up _) as [r|e].
  - destruct Hf as [Hs ->]. run_handler. rewrite Hs. by eexists.
  - subst. by eexists.
Qed.

Lemma search_snapshots_failure args up url limit msg :
  args !! "url" = Some url ->
  search_limit args = Ok limit ->
  let req := metadata_request WAYBACK_CDX_API
               (search_params url limit (Dict.get args "from_date" ANone)
                  (Dict.get args "to_date" ANone) (Dict.get args "status_code" ANone)) in
  fails (cdx_api up req) msg ->
  exists e, run (search_snapshots args) up = (Raise e, [req]) /\ Py.str_exn e = msg.
Proof.
  intros Hurl Hlim req Hf. apply fails_inv in Hf.
  unfold run, search_snapshots, Dict.getitem. rewrite Hurl, Hlim. run_handler.
  fold req. destruct (cdx_api up req) as [r|e].
  - destruct Hf as [Hs ->]. run_handler. rewrite Hs. by eexists.
  - subst. by eexists.
Qed.

Lemma get_snapshot_content_failure args up snapshot_url u msg :
  args !! "snapshot_url" = Some snapshot_url ->
  fetch_url (Dict.get args "raw" (ABool false)) snapshot_url = Ok (AStr u) ->
  fails (web up (content_request u)) msg ->
  exists e, run (get_snapshot_content args) up = (Raise e, [content_request u])
            /\ Py.str_exn e = msg.
Proof.
  intros Hurl Hfetch Hf. apply fails_inv in Hf.
  unfold run, get_snapshot_content, Dict.getitem. rewrite Hurl. run_handler.
  rewrite Hfetch. run_handler. unfold fetch. run_handler.
  destruct (web up _) as [r|e].
  - destruct Hf as [Hs ->]. run_handler. rewrite Hs. by eexists.
  - subst. by eexists.
Qed.

Lemma reports_of_raise name args up req e msg :
  run (dispatch name args) up = (Raise e, [req]) ->
  Py.str_exn e = msg ->
  reports name args up req msg.
Proof.
  intros Hrun <-. unfold reports. by rewrite call_tool_of_dispatch, Hrun.
Qed.

(** What [check_url_availability] does once its three requests are answered. *)
Lemma check_url_availability_answered args up url c f l :
  args !! "url" = Some url ->
  cdx_api up (count_request url) = Ok c ->
  cdx_api up (first_request url) = Ok f ->
  cdx_api up (last_request url) = Ok l ->
  run (check_url_availability args) up =
  (match rows_if_200 f with
   | Raise e => Raise e
   | Ok first_data =>
       match rows_if_200 l with
       | Raise e => Raise e
       | Ok last_data =>
           match snapshot_of first_data with
           | Raise e => Raise e
           | Ok first_snapshot =>
               match snapshot_of last_data with
               | Raise e => Raise e
               | Ok last_snapshot =>
                   Ok (json_result
                         (JObj [("url", json_of_atom url);
                                ("is_archived", JBool (is_not_None first_snapshot));
                                ("first_snapshot", first_snapshot);
                                ("latest_snapshot", last_snapshot);
                                ("wayback_url",
                                  JStr ("https://web.archive.org/web/*/" +:+ Py.str url))]))
               end
           end
       end
   end, [count_request url; first_request url; last_request url]).
Proof.
  intros Hurl Hc Hf Hl.
  unfold run, check_url_availability, Dict.getitem. rewrite Hurl. run_handler.
  rewrite Hc. run_handler. rewrite Hf. run_handler. rewrite Hl.
  destruct (rows_if_200 f) as [fd|e]; run_handler; [|reflexivity].
  destruct (rows_if_200 l) as [ld|e]; run_handler; [|reflexivity].
  destruct (snapshot_of fd) as [fs|e]; run_handler; [|reflexivity].
  destruct (snapshot_of ld) as [ls|e]; run_handler; reflexivity.
Qed.

Lemma check_url_availability_transport args up url e :
  args !! "url" = Some url ->
  (cdx_api up (count_request url) = Raise e ->
   run (check_url_availability args) up = (Raise e, [count_request url]))
  /\ (forall c, cdx_api up (count_request url) = Ok c ->
      cdx_api up (first_request url) = Raise e ->
      run (check_url_availability args) up = (Raise e, [count_request url; first_request url]))
  /\ (forall c f, cdx_api up (count_request url) = Ok c ->
      cdx_api up (first_request url) = Ok f ->
      cdx_api up (last_request url) = Raise e ->
      run (check_url_availability args) up
      = (Raise e, [count_request url; first_request url; last_request url])).
Proof.
  intros Hurl. repeat split.
  - intros Hc. unfold run, check_url_availability, Dict.getitem. rewrite Hurl. run_handler.
    by rewrite Hc.
  - intros c Hc Hf. unfold run, check_url_availability, Dict.getitem. rewrite Hurl. run_handler.
    rewrite Hc. run_handler. by rewrite Hf.
  - intros c f Hc Hf Hl. unfold run, check_url_availability, Dict.getitem. rewrite Hurl.
    run_handler. rewrite Hc. run_handler. rewrite Hf. run_handler. by rewrite Hl.
Qed.

(** ** [call_tool]: unknown names and raised exceptions *)

Lemma dispatch_unknown {F} `{!Effects F} name args :
  name ∉ tool_names ->
  dispatch name args = ret (F := F) (error_result ("Unknown tool: " +:+ name)).
Proof.
  unfold tool_names. rewrite !not_elem_of_cons. intros (H1 & H2 & H3 & H4 & H5 & _).
  unfold dispatch.
  by rewrite !(proj2 (String.eqb_neq _ _)).
Qed.

Lemma dispatch_cases {F} `{!Effects F} name args :
  (name ∈ tool_names
   /\ ((name = "get_latest_snapshot"
        /\ dispatch (F := F) name args = get_latest_snapshot args)
       \/ (name = "get_snapshot_at_date" /\ dispatch name args = get_snapshot_at_date args)
       \/ (name = "search_snapshots" /\ dispatch name args = search_snapshots args)
       \/ (name = "get_snapshot_content" /\ dispatch name args = get_snapshot_content args)
       \/ (name = "check_url_availability"
           /\ dispatch name args = check_url_availability args)))
  \/ ((name ∉ tool_names)
      /\ dispatch (F := F) name args = ret (error_result ("Unknown tool: " +:+ name))).
Proof.
  destruct (decide (name ∈ tool_names)) as [Hin|Hout].
  - left. split; [done|]. unfold tool_names in Hin.
    repeat (apply elem_of_cons in Hin as [->|Hin]); [..|by apply elem_of_nil in Hin]; auto 10.
  - right. split; [done|]. by apply dispatch_unknown.
Qed.

(** *** The handlers in a task *)

Lemma first_interrupt_app intr start c1 c2 :
  first_interrupt intr start (c1 + c2)
  = match first_interrupt intr start c1 with
    | Some x => Some x
    | None => first_interrupt intr (start + c1) c2
    end.
Proof.
  revert start. induction c1 as [|c1 IH]; intros start; cbn [first_interrupt Nat.add].
  - by rewrite Nat.add_0_r.
  - destruct (intr start); [done|]. rewrite IH. by rewrite Nat.add_succ_comm.
Qed.

Lemma first_interrupt_some intr start count n b :
  first_interrupt intr start count = Some (n, b) ->
  (start <= n < start + count)%nat /\ intr n = Some b
  /\ forall k, (start <= k < n)%nat -> intr k = None.
Proof.
  revert start. induction count as [|count IH]; intros start; cbn [first_interrupt]; [done|].
  destruct (intr start) as [b'|] eqn:E.
  - intros [= <- <-]. split; [lia|]. split; [done|]. intros k Hk. lia.
  - intros H. destruct (IH _ H) as (Hn & Hb & Hk). split; [lia|]. split; [done|].
    intros k Hk'. destruct (decide (k = start)) as [->|]; [done|]. apply Hk. lia.
Qed.

Lemma first_interrupt_none intr start count :
  (forall n, (start <= n < start + count)%nat -> intr n = None) ->
  first_interrupt intr start count = None.
Proof.
  revert start. induction count as [|count IH]; intros start H; cbn [first_interrupt]; [done|].
  rewrite H by lia. apply IH. intros n Hn. apply H. lia.
Qed.

Lemma task_of_ret {A} (a : A) : task_of (ret a) (ret a).
Proof.
  intros up intr log. split; [exists []; by rewrite app_nil_r|].
  unfold interrupted. cbn. by rewrite Nat.sub_diag.
Qed.

Lemma task_of_raise {A} e : task_of (raise (A := A) e) (raise e).
Proof.
  intros up intr log. split; [exists []; by rewrite app_nil_r|].
  unfold interrupted. cbn. by rewrite Nat.sub_diag.
Qed.

Lemma task_of_lift {A} (r : result A) : task_of (lift r) (lift r).
Proof. destruct r; [apply task_of_ret|apply task_of_raise]. Qed.

Lemma task_of_send {A} (endpoint : upstream -> request -> result (response A)) req :
  task_of (send endpoint req) (send endpoint req).
Proof.
  intros up intr log. split; [by exists [req]|].
  unfold interrupted. cbn [send M_effects Task_effects snd fst].
  rewrite length_app. cbn [length].
  replace (length log + 1 - length log)%nat with 1%nat by lia. cbn [first_interrupt].
  destruct (intr (length log)); [|done].
  by rewrite take_ge by (rewrite length_app; cbn; lia).
Qed.

(** The run of [m], then of what follows, seen from the first log. *)
Lemma interrupted_later {B} intr (log new new' : list request) (r' : result B) :
  first_interrupt intr (length log) (length new) = None ->
  interrupted intr (length (log ++ new)) (r', (log ++ new) ++ new')
  = interrupted intr (length log) (r', (log ++ new) ++ new').
Proof.
  intros Hnone. unfold interrupted. cbn [fst snd]. rewrite !length_app.
  replace (length log + length new + length new' - (length log + length new))%nat
    with (length new') by lia.
  replace (length log + length new + length new' - length log)%nat
    with (length new + length new')%nat by lia.
  by rewrite first_interrupt_app, Hnone.
Qed.

Lemma interrupted_earlier {B} intr (log new new' : list request) (r' : result B) n b :
  first_interrupt intr (length log) (length new) = Some (n, b) ->
  interrupted intr (length log) (r', (log ++ new) ++ new')
  = (Interrupted b, take (S n) (log ++ new)).
Proof.
  intros Hsome. unfold interrupted. cbn [fst snd]. rewrite !length_app.
  replace (length log + length new + length new' - length log)%nat
    with (length new + length new')%nat by lia.
  rewrite first_interrupt_app, Hsome.
  apply first_interrupt_some in Hsome as (Hn & _ & _).
  by rewrite take_app_le by (rewrite length_app; lia).
Qed.

Lemma task_of_bind {A B} (t : Task A) (m : M A) (kt : A -> Task B) (km : A -> M B) :
  task_of t m -> (forall a, task_of (kt a) (km a)) -> task_of (bind t kt) (bind m km).
Proof.
  intros Hm Hk up intr log. destruct (Hm up intr log) as [[new Hlog] Ht].
  cbn [bind M_effects Task_effects]. rewrite Ht.
  destruct (m up log) as [r log1]. cbn [snd] in Hlog. subst log1.
  unfold interrupted at 1. cbn [fst snd]. rewrite length_app.
  replace (length log + length new - length log)%nat with (length new) by lia.
  destruct (first_interrupt intr (length log) (length new)) as [[n b]|] eqn:Hfirst.
  - destruct r as [a|e].
    + destruct (Hk a up intr (log ++ new)) as [[new' Hlog'] _].
      destruct (km a up (log ++ new)) as [r' log2]. cbn [snd] in Hlog'. subst log2.
      split; [exists (new ++ new'); by rewrite app_assoc|].
      by rewrite (interrupted_earlier _ _ _ _ _ _ _ Hfirst).
    + split; [by exists new|]. unfold interrupted. cbn [fst snd]. rewrite length_app.
      replace (length log + length new - length log)%nat with (length new) by lia.
      by rewrite Hfirst.
  - destruct r as [a|e].
    + destruct (Hk a up intr (log ++ new)) as [[new' Hlog'] Hkt]. rewrite Hkt.
      destruct (km a up (log ++ new)) as [r' log2]. cbn [snd] in Hlog'. subst log2.
      split; [exists (new ++ new'); by rewrite app_assoc|].
      by apply interrupted_later.
    + split; [by exists new|]. unfold interrupted. cbn [fst snd]. rewrite length_app.
      replace (length log + length new - length log)%nat with (length new) by lia.
      by rewrite Hfirst.
Qed.

Lemma task_of_try_except {A} (t : Task A) (m : M A) (ht : exn -> Task A) (hm : exn -> M A) :
  task_of t m -> (forall e, task_of (ht e) (hm e)) -> task_of (try_except t ht) (try_except m hm).
Proof.
  intros Hm Hk up intr log. destruct (Hm up intr log) as [[new Hlog] Ht].
  cbn [try_except M_effects Task_effects]. rewrite Ht.
  destruct (m up log) as [r log1]. cbn [snd] in Hlog. subst log1.
  unfold interrupted at 1. cbn [fst snd]. rewrite length_app.
  replace (length log + length new - length log)%nat with (length new) by lia.
  destruct (first_interrupt intr (length log) (length new)) as [[n b]|] eqn:Hfirst.
  - destruct r as [a|e].
    + split; [by exists new|]. unfold interrupted. cbn [fst snd]. rewrite length_app.
      replace (length log + length new - length log)%nat with (length new) by lia.
      by rewrite Hfirst.
    + destruct (Hk e up intr (log ++ new)) as [[new' Hlog'] _].
      destruct (hm e up (log ++ new)) as [r' log2]. cbn [snd] in Hlog'. subst log2.
      split; [exists (new ++ new'); by rewrite app_assoc|].
      by rewrite (interrupted_earlier _ _ _ _ _ _ _ Hfirst).
  - destruct r as [a|e].
    + split; [by exists new|]. unfold interrupted. cbn [fst snd]. rewrite length_app.
      replace (length log + length new - length log)%nat with (length new) by lia.
      by rewrite Hfirst.
    + destruct (Hk e up intr (log ++ new)) as [[new' Hlog'] Hkt]. rewrite Hkt.
      destruct (hm e up (log ++ new)) as [r' log2]. cbn [snd] in Hlog'. subst log2.
      split; [exists (new ++ new'); by rewrite app_assoc|].
      by apply interrupted_later.
Qed.

Lemma task_of_raise_for_status {A} (r : response A) :
  task_of (raise_for_status r) (raise_for_status r).
Proof. unfold raise_for_status. destruct (is_success r); [apply task_of_ret|apply task_of_raise]. Qed.

Ltac task_step :=
  first
    [ apply task_of_ret
    | apply task_of_raise
    | apply task_of_lift
    | apply task_of_send
    | apply task_of_raise_for_status
    | apply task_of_bind; [|intros ?]
    | match goal with |- context [if ?b then _ else _] => destruct b end ].

Lemma get_latest_snapshot_task args :
  task_of (get_latest_snapshot args) (get_latest_snapshot args).
Proof. unfold get_latest_snapshot. repeat task_step. Qed.

Lemma get_snapshot_at_date_task args :
  task_of (get_snapshot_at_date args) (get_snapshot_at_date args).
Proof. unfold get_snapshot_at_date. repeat task_step. Qed.

Lemma search_snapshots_task args :
  task_of (search_snapshots args) (search_snapshots args).
Proof. unfold search_snapshots. repeat task_step. Qed.

Lemma get_snapshot_content_task args :
  task_of (get_snapshot_content args) (get_snapshot_content args).
Proof.
  unfold get_snapshot_content, fetch.
  repeat first
    [ task_step
    | match goal with
      | |- context [match ?u with AStr _ => _ | _ => _ end] => destruct u
      end ].
Qed.

Lemma check_url_availability_task args :
  task_of (check_url_availability args) (check_url_availability args).
Proof. unfold check_url_availability. repeat task_step. Qed.

Lemma dispatch_task name args : task_of (dispatch name args) (dispatch name args).
Proof.
  destruct (dispatch_cases (F := Task) name args)
    as [(_ & [(-> & ->)|[(-> & ->)|[(-> & ->)|[(-> & ->)|(-> & ->)]]]])|(Hout & ->)].
  - apply get_latest_snapshot_task.
  - apply get_snapshot_at_date_task.
  - apply search_snapshots_task.
  - apply get_snapshot_content_task.
  - apply check_url_availability_task.
  - rewrite (dispatch_unknown (F := M) _ _ Hout). apply task_of_ret.
Qed.

Lemma call_tool_task name args : task_of (call_tool name args) (call_tool name args).
Proof.
  unfold call_tool. apply task_of_try_except; [apply dispatch_task|]. intros e. apply task_of_ret.
Qed.

Lemma call_tool_returns name args up :
  exists r log, run (call_tool name args) up = (Ok r, log).
Proof.
  rewrite call_tool_of_dispatch.
  destruct (run (dispatch name args) up) as [[r|e] log]; by eexists _, _.
Qed.

(** C9, as stated, fails on a call whose task is cancelled: the
    [CancelledError] raised at the [await] of the request is no
    [Exception], and it leaves [call_tool]. *)
Lemma cancelled_call_escapes :
  run_task (call_tool "get_latest_snapshot" example_args) archive_up cancelled_at_first
  = (Interrupted CancelledError,
     [metadata_request WAYBACK_AVAILABILITY_API [("url", AStr "example.com")]])
  /\ ~ (exists r,
          fst (run_task (call_tool "get_latest_snapshot" example_args) archive_up
                 cancelled_at_first)
          = Completed (Ok r)).
Proof.
  split; [vm_compute; reflexivity|]. intros [r H]. vm_compute in H. discriminate.
Qed.

(** C9 (amended). A name outside the five registered tools gets the
    error-flagged result [Unknown tool: <name>], and no request is issued.
    A call in a task does what the call does when it runs to its end, up to
    the first [await] that is interrupted; with no [await] interrupted it
    returns a result.  So [call_tool] lets no [Exception] escape: a call
    either returns a result, or an exception outside [Exception] leaves it,
    the one raised at the [await] of the last request it issued.  Whenever
    the dispatched handler raises an [Exception] [e], the result is the
    error-flagged one whose text is [Error: ] followed by [str(e)]; an
    exception outside [Exception] that leaves the handler leaves
    [call_tool] too. *)
Theorem call_tool_total :
  (forall name args up intr,
      name ∉ tool_names ->
      run_task (call_tool name args) up intr
      = (Completed (Ok (error_result ("Unknown tool: " +:+ name))), []))
  /\ (forall name args up intr,
        run_task (call_tool name args) up intr
        = interrupted intr 0 (run (call_tool name args) up)
        /\ ((forall n, intr n = None) ->
            exists r log,
              run (call_tool name args) up = (Ok r, log)
              /\ run_task (call_tool name args) up intr = (Completed (Ok r), log)))
  /\ (forall name args up intr,
        (exists r log, run_task (call_tool name args) up intr = (Completed (Ok r), log))
        \/ (exists b log req,
              run_task (call_tool name args) up intr = (Interrupted b, log ++ [req])
              /\ intr (length log) = Some b))
  /\ (forall name args up intr e log,
        run_task (dispatch name args) up intr = (Completed (Raise e), log) ->
        run_task (call_tool name args) up intr
        = (Completed (Ok (error_result ("Error: " +:+ Py.str_exn e))), log))
  /\ (forall name args up intr b log,
        run_task (dispatch name args) up intr = (Interrupted b, log) ->
        run_task (call_tool name args) up intr = (Interrupted b, log)).
Proof.
  assert (Htask : forall name args up intr,
             run_task (call_tool name args) up intr
             = interrupted intr 0 (run (call_tool name args) up)).
  { intros name args up intr. unfold run_task, run.
    by destruct (call_tool_task name args up intr []) as [_ ->]. }
  split; [|split; [|split; [|split]]].
  - intros name args up intr Hname. unfold run_task, call_tool.
    rewrite (dispatch_unknown (F := Task) _ _ Hname). reflexivity.
  - intros name args up intr. split; [apply Htask|]. intros Hnever.
    destruct (call_tool_returns name args up) as (r & log & Hrun).
    exists r, log. split; [done|]. rewrite Htask, Hrun. unfold interrupted.
    by rewrite first_interrupt_none by (intros; apply Hnever).
  - intros name args up intr. rewrite Htask.
    destruct (call_tool_returns name args up) as (r & log & ->).
    unfold interrupted. cbn [fst snd]. rewrite Nat.sub_0_r.
    destruct (first_interrupt intr 0 (length log)) as [[n b]|] eqn:Hfirst.
    + right. apply first_interrupt_some in Hfirst as (Hn & Hb & _).
      destruct (lookup_lt_is_Some_2 log n) as [req Hreq]; [lia|].
      exists b, (take n log), req. split.
      * by rewrite (take_S_r _ _ _ Hreq).
      * rewrite length_take_le by lia. done.
    + left. by exists r, log.
  - intros name args up intr e log Hrun. unfold run_task, call_tool in *.
    cbn [try_except Task_effects]. by rewrite Hrun.
  - intros name args up intr b log Hrun. unfold run_task, call_tool in *.
    cbn [try_except Task_effects]. by rewrite Hrun.
Qed.

Example task_samples :
  run_task (call_tool "check_url_availability" example_args) archive_up never
  = (Completed (fst (run (call_tool "check_url_availability" example_args) archive_up)),
     [count_request (AStr "example.com"); first_request (AStr "example.com");
      last_request (AStr "example.com")])
  /\ run_task (call_tool "check_url_availability" example_args) archive_up
       (fun n => match n with 1%nat => Some KeyboardInterrupt | _ => None end)
     = (Interrupted KeyboardInterrupt,
        [count_request (AStr "example.com"); first_request (AStr "example.com")])
  /\ run_task (call_tool "get_latest_snapshot" ∅) archive_up cancelled_at_first
     = (Completed (Ok (error_result "Error: 'url'")), []).
Proof. vm_compute. repeat split; reflexivity. Qed.

Example call_tool_missing_argument :
  run (call_tool "get_latest_snapshot" ∅) archive_down = (Ok (error_result "Error: 'url'"), []).
Proof. vm_compute. reflexivity. Qed.

Example call_tool_unknown_name :
  run (call_tool "delete_snapshot" example_args) archive_down
  = (Ok (error_result "Unknown tool: delete_snapshot"), []).
Proof. vm_compute. reflexivity. Qed.

(** ** Upstream failures *)

(** C3, as stated, fails on [check_url_availability]: with every answer of
    the archive a 503, the tool returns a normal result, not an error. *)
Lemma check_url_availability_swallows_status :
  fails (cdx_api archive_down (first_request (AStr "example.com")))
    "Server error '503 Service Unavailable'"
  /\ run (call_tool "check_url_availability" example_args) archive_down
     = (Ok (json_result
              (JObj [("url", JStr "example.com");
                     ("is_archived", JBool false);
                     ("first_snapshot", JNull);
                     ("latest_snapshot", JNull);
                     ("wayback_url", JStr "https://web.archive.org/web/*/example.com")])),
        [count_request (AStr "example.com"); first_request (AStr "example.com");
         last_request (AStr "example.com")])
  /\ ~ (exists msg, fst (run (call_tool "check_url_availability" example_args) archive_down)
                    = Ok (error_result msg)).
Proof.
  split; [|split].
  - apply (fails_status (mkResponse 503 _ _)). reflexivity.
  - vm_compute. reflexivity.
  - intros [msg H]. vm_compute in H. discriminate.
Qed.

(** C3 (amended). For [get_latest_snapshot], [get_snapshot_at_date],
    [search_snapshots] and [get_snapshot_content], an upstream failure of
    the request (a transport failure, or a status outside 200..299) makes
    [call_tool] return the error-flagged result with the text [Error: ]
    followed by the error message, and that request is the only one issued
    (no retry, no normal result).  [check_url_availability] returns the
    error-flagged result when one of its three requests fails in transport;
    it does not test the status of the count call, and it reads a first or
    latest answer whose status is not 200 as an answer without rows, so the
    result is then a normal one with [is_archived] false. *)
Theorem upstream_failure_reported :
  (forall args up url msg,
      args !! "url" = Some url ->
      let req := metadata_request WAYBACK_AVAILABILITY_API [("url", url)] in
      fails (availability_api up req) msg ->
      reports "get_latest_snapshot" args up req msg)
  /\ (forall args up url timestamp msg,
        args !! "url" = Some url ->
        args !! "timestamp" = Some timestamp ->
        let req := metadata_request WAYBACK_AVAILABILITY_API
                     [("url", url); ("timestamp", timestamp)] in
        fails (availability_api up req) msg ->
        reports "get_snapshot_at_date" args up req msg)
  /\ (forall args up url limit msg,
        args !! "url" = Some url ->
        search_limit args = Ok limit ->
        let req := metadata_request WAYBACK_CDX_API
                     (search_params url limit (Dict.get args "from_date" ANone)
                        (Dict.get args "to_date" ANone) (Dict.get args "status_code" ANone)) in
        fails (cdx_api up req) msg ->
        reports "search_snapshots" args up req msg)
  /\ (forall args up snapshot_url u msg,
        args !! "snapshot_url" = Some snapshot_url ->
        fetch_url (Dict.get args "raw" (ABool false)) snapshot_url = Ok (AStr u) ->
        fails (web up (content_request u)) msg ->
        reports "get_snapshot_content" args up (content_request u) msg)
  /\ (forall args up url e,
        args !! "url" = Some url ->
        let failed log :=
          run (call_tool "check_url_availability" args) up
          = (Ok (error_result ("Error: " +:+ Py.str_exn e)), log) in
        (cdx_api up (count_request url) = Raise e -> failed [count_request url])
        /\ (forall c, cdx_api up (count_request url) = Ok c ->
            cdx_api up (first_request url) = Raise e ->
            failed [count_request url; first_request url])
        /\ (forall c f, cdx_api up (count_request url) = Ok c ->
            cdx_api up (first_request url) = Ok f ->
            cdx_api up (last_request url) = Raise e ->
            failed [count_request url; first_request url; last_request url]))
  /\ (forall args up url c f l,
        args !! "url" = Some url ->
        cdx_api up (count_request url) = Ok c ->
        cdx_api up (first_request url) = Ok f ->
        cdx_api up (last_request url) = Ok l ->
        status_code f <> 200 ->
        status_code l <> 200 ->
        run (call_tool "check_url_availability" args) up
        = (Ok (json_result
                 (JObj [("url", json_of_atom url);
                        ("is_archived", JBool false);
                        ("first_snapshot", JNull);
                        ("latest_snapshot", JNull);
                        ("wayback_url",
                          JStr ("https://web.archive.org/web/*/" +:+ Py.str url))])),
           [count_request url; first_request url; last_request url])).
Proof.
  split; [|split; [|split; [|split; [|split]]]].
  - intros args up url msg Hurl req Hf.
    destruct (get_latest_snapshot_failure _ _ _ _ Hurl Hf) as (e & Hrun & Hmsg).
    by apply (reports_of_raise _ _ _ _ e).
  - intros args up url ts msg Hurl Hts req Hf.
    destruct (get_snapshot_at_date_failure _ _ _ _ _ Hurl Hts Hf) as (e & Hrun & Hmsg).
    by apply (reports_of_raise _ _ _ _ e).
  - intros args up url limit msg Hurl Hlim req Hf.
    destruct (search_snapshots_failure _ _ _ _ _ Hurl Hlim Hf) as (e & Hrun & Hmsg).
    by apply (reports_of_raise _ _ _ _ e).
  - intros args up s u msg Hurl Hfetch Hf.
    destruct (get_snapshot_content_failure _ _ _ _ _ Hurl Hfetch Hf) as (e & Hrun & Hmsg).
    by apply (reports_of_raise _ _ _ _ e).
  - intros args up url e Hurl failed.
    destruct (check_url_availability_transport args up url e Hurl) as (H1 & H2 & H3).
    unfold failed. repeat split.
    + intros Hc. rewrite call_tool_of_dispatch. change (dispatch _ args) with (check_url_availability (F := M) args).
      by rewrite (H1 Hc).
    + intros c Hc Hf. rewrite call_tool_of_dispatch.
      change (dispatch _ args) with (check_url_availability (F := M) args). by rewrite (H2 c Hc Hf).
    + intros c f Hc Hf Hl. rewrite call_tool_of_dispatch.
      change (dispatch _ args) with (check_url_availability (F := M) args). by rewrite (H3 c f Hc Hf Hl).
  - intros args up url c f l Hurl Hc Hf Hl Hsf Hsl.
    rewrite call_tool_of_dispatch. change (dispatch _ args) with (check_url_availability (F := M) args).
    rewrite (check_url_availability_answered _ _ _ _ _ _ Hurl Hc Hf Hl).
    unfold rows_if_200.
    rewrite (proj2 (Z.eqb_neq _ _) Hsf), (proj2 (Z.eqb_neq _ _) Hsl). reflexivity.
Qed.

Lemma upstream_failure_reported_witness :
  reports "get_latest_snapshot" example_args archive_down
    (metadata_request WAYBACK_AVAILABILITY_API [("url", AStr "example.com")])
    "Server error '503 Service Unavailable'".
Proof.
  apply (proj1 upstream_failure_reported example_args archive_down (AStr "example.com")).
  - reflexivity.
  - apply (fails_status (mkResponse 503 _ _)). reflexivity.
Defined.

(** ** [check_url_availability]: [is_archived] *)

Lemma snapshot_of_readable (data : cdx_rows) :
  (forall row, data !! 1%nat = Some row -> row <> []) ->
  exists snapshot, snapshot_of data = Ok snapshot
    /\ (is_not_None snapshot = true <-> exists header row rest, data = header :: row :: rest).
Proof.
  intros Hrow. unfold snapshot_of.
  destruct data as [|header [|row rest]].
  - exists JNull. split; [reflexivity|]. split; [discriminate|]. by intros (?&?&?&?).
  - exists JNull. split; [reflexivity|]. split; [discriminate|]. by intros (?&?&?&?).
  - assert (Hlen : nonempty (header :: row :: rest) && (1 <? len (header :: row :: rest)) = true).
    { unfold len. cbn [nonempty length andb]. apply Z.ltb_lt. lia. }
    rewrite Hlen. cbn [second_row_first_cell].
    destruct row as [|ts row].
    + by destruct (Hrow [] eq_refl).
    + eexists. split; [reflexivity|]. split; [|reflexivity]. intros _. by eexists _, _, _.
Qed.

Lemma snapshot_of_returned (data : cdx_rows) snapshot :
  snapshot_of data = Ok snapshot ->
  (is_not_None snapshot = true <-> exists header row rest, data = header :: row :: rest).
Proof.
  unfold snapshot_of. destruct data as [|header [|row rest]].
  - intros [= <-]. split; [discriminate|]. by intros (?&?&?&?).
  - intros [= <-]. split; [discriminate|]. by intros (?&?&?&?).
  - assert (Hlen : nonempty (header :: row :: rest) && (1 <? len (header :: row :: rest)) = true).
    { unfold len. cbn [nonempty length andb]. apply Z.ltb_lt. lia. }
    rewrite Hlen. destruct (second_row_first_cell _) as [ts|e]; [|discriminate].
    intros [= <-]. split; [|reflexivity]. intros _. by eexists _, _, _.
Qed.

Lemma rows_if_200_returned (r : response (result cdx_rows)) data :
  rows_if_200 r = Ok data ->
  ((exists header row rest, data = header :: row :: rest) <->
   status_code r = 200 /\ exists header row rest, body r = Ok (header :: row :: rest)).
Proof.
  unfold rows_if_200. destruct (Z.eqb_spec (status_code r) 200) as [E|E].
  - intros ->. split.
    + intros (h & row & rest & ->). split; [exact E|]. by eexists _, _, _.
    + intros (_ & h & row & rest & Heq). injection Heq as ->. by eexists _, _, _.
  - intros [= <-]. split.
    + by intros (?&?&?&?).
    + by intros (? & _).
Qed.

(** C1, as stated, fails on a first answer whose status is not 200: the
    first-snapshot call of [archive_proxied] returns a data row behind the
    header row, with status 203, and [is_archived] is false. *)
Lemma proxied_first_row_not_archived :
  cdx_api archive_proxied (first_request (AStr "example.com"))
  = Ok (mkResponse 203 EmptyString
          (Ok [["timestamp"; "statuscode"]; ["20230101120000"; "200"]]))
  /\ run (call_tool "check_url_availability" example_args) archive_proxied
     = (Ok (json_result
              (JObj [("url", JStr "example.com");
                     ("is_archived", JBool false);
                     ("first_snapshot", JNull);
                     ("latest_snapshot", JNull);
                     ("wayback_url", JStr "https://web.archive.org/web/*/example.com")])),
        [count_request (AStr "example.com"); first_request (AStr "example.com");
         last_request (AStr "example.com")]).
Proof. split; [reflexivity|vm_compute; reflexivity]. Qed.

(** C1 (amended). Whenever [check_url_availability] returns a result, the
    result is the normal one, it has issued its three requests, the
    first-snapshot call (the request with [limit] 1 and no [fastLatest])
    was answered, and [is_archived] is true exactly when that answer has
    status 200 and at least one row behind the header row; otherwise
    [is_archived] is false.  The tool returns a result whenever its three
    requests are answered and the first and latest answers are readable. *)
Theorem is_archived_iff_first_row args up url :
  args !! "url" = Some url ->
  (forall r log,
      run (check_url_availability args) up = (Ok r, log) ->
      exists f is_archived first_snapshot latest_snapshot,
        cdx_api up (first_request url) = Ok f
        /\ r = json_result
                 (JObj [("url", json_of_atom url);
                        ("is_archived", JBool is_archived);
                        ("first_snapshot", first_snapshot);
                        ("latest_snapshot", latest_snapshot);
                        ("wayback_url",
                          JStr ("https://web.archive.org/web/*/" +:+ Py.str url))])
        /\ log = [count_request url; first_request url; last_request url]
        /\ (is_archived = true <->
            status_code f = 200
            /\ exists header row rest, body f = Ok (header :: row :: rest)))
  /\ (forall c f l,
        cdx_api up (count_request url) = Ok c ->
        cdx_api up (first_request url) = Ok f ->
        cdx_api up (last_request url) = Ok l ->
        readable f ->
        readable l ->
        exists r,
          run (check_url_availability args) up
          = (Ok r, [count_request url; first_request url; last_request url]))
  /\ req_params (first_request url)
     = [("url", url); ("output", AStr "json"); ("fl", AStr "timestamp,statuscode");
        ("limit", AInt 1)].
Proof.
  intros Hurl. split; [|split; [|reflexivity]].
  - intros r log Hrun.
    destruct (cdx_api up (count_request url)) as [c|e] eqn:Hc.
    2: { destruct (check_url_availability_transport args up url e Hurl) as (H1 & _).
         rewrite (H1 Hc) in Hrun. discriminate Hrun. }
    destruct (cdx_api up (first_request url)) as [f|e] eqn:Hf.
    2: { destruct (check_url_availability_transport args up url e Hurl) as (_ & H2 & _).
         rewrite (H2 c Hc Hf) in Hrun. discriminate Hrun. }
    destruct (cdx_api up (last_request url)) as [l|e] eqn:Hl.
    2: { destruct (check_url_availability_transport args up url e Hurl) as (_ & _ & H3).
         rewrite (H3 c f Hc Hf Hl) in Hrun. discriminate Hrun. }
    rewrite (check_url_availability_answered _ _ _ _ _ _ Hurl Hc Hf Hl) in Hrun.
    destruct (rows_if_200 f) as [fd|e] eqn:Hfd; [|discriminate Hrun].
    destruct (rows_if_200 l) as [ld|e] eqn:Hld; [|discriminate Hrun].
    destruct (snapshot_of fd) as [fs|e] eqn:Hfs; [|discriminate Hrun].
    destruct (snapshot_of ld) as [ls|e] eqn:Hls; [|discriminate Hrun].
    injection Hrun as <- <-.
    exists f, (is_not_None fs), fs, ls. split; [reflexivity|]. split; [reflexivity|].
    split; [reflexivity|].
    by rewrite (snapshot_of_returned _ _ Hfs), (rows_if_200_returned _ _ Hfd).
  - intros c f l Hc Hf Hl Rf Rl.
    rewrite (check_url_availability_answered _ _ _ _ _ _ Hurl Hc Hf Hl).
    assert (Hrows : forall r, readable r ->
              exists data, rows_if_200 r = Ok data
                /\ (forall row, data !! 1%nat = Some row -> row <> [])).
    { intros r Hr. unfold rows_if_200. destruct (Z.eqb_spec (status_code r) 200) as [E|E].
      - destruct (Hr E) as (rows & Hb & Hrow). exists rows. by rewrite Hb.
      - exists []. split; [reflexivity|]. by intros row. }
    destruct (Hrows f Rf) as (fd & -> & Hfrow).
    destruct (Hrows l Rl) as (ld & -> & Hlrow).
    destruct (snapshot_of_readable fd Hfrow) as (fs & -> & _).
    destruct (snapshot_of_readable ld Hlrow) as (ls & -> & _).
    by eexists.
Qed.

Lemma is_archived_iff_first_row_witness :
  exists f is_archived first_snapshot latest_snapshot,
    cdx_api archive_up (first_request (AStr "example.com")) = Ok f
    /\ json_result
         (JObj [("url", JStr "example.com");
                ("is_archived", JBool true);
                ("first_snapshot",
                  JObj [("timestamp", JStr "20230101120000");
                        ("formatted_time", JStr "2023-01-01 12:00:00 UTC")]);
                ("latest_snapshot",
                  JObj [("timestamp", JStr "20230101120000");
                        ("formatted_time", JStr "2023-01-01 12:00:00 UTC")]);
                ("wayback_url", JStr "https://web.archive.org/web/*/example.com")])
       = json_result
           (JObj [("url", JStr "example.com");
                  ("is_archived", JBool is_archived);
                  ("first_snapshot", first_snapshot);
                  ("latest_snapshot", latest_snapshot);
                  ("wayback_url", JStr "https://web.archive.org/web/*/example.com")])
    /\ [count_request (AStr "example.com"); first_request (AStr "example.com");
        last_request (AStr "example.com")]
       = [count_request (AStr "example.com"); first_request (AStr "example.com");
          last_request (AStr "example.com")]
    /\ (is_archived = true <->
        status_code f = 200 /\ exists header row rest, body f = Ok (header :: row :: rest)).
Proof.
  apply (proj1 (is_archived_iff_first_row example_args archive_up (AStr "example.com")
                  eq_refl)).
  vm_compute. reflexivity.
Defined.

Example check_url_availability_sample :
  run (call_tool "check_url_availability" example_args) archive_up
  = (Ok (json_result
           (JObj [("url", JStr "example.com");
                  ("is_archived", JBool true);
                  ("first_snapshot",
                    JObj [("timestamp", JStr "20230101120000");
                          ("formatted_time", JStr "2023-01-01 12:00:00 UTC")]);
                  ("latest_snapshot",
                    JObj [("timestamp", JStr "20230101120000");
                          ("formatted_time", JStr "2023-01-01 12:00:00 UTC")]);
                  ("wayback_url", JStr "https://web.archive.org/web/*/example.com")])),
     [count_request (AStr "example.com"); first_request (AStr "example.com");
      last_request (AStr "example.com")]).
Proof. vm_compute. reflexivity. Qed.

(** ** [search_snapshots]: the limit sent upstream *)

Lemma param_add_if key value k p params v :
  param key params = Some v -> param key (add_if value k p params) = Some v.
Proof.
  unfold add_if. destruct (Py.truthy value); [|done].
  induction params as [|[k' v'] params IH]; cbn [param app]; [done|].
  destruct (String.eqb k' key); [done|]. exact IH.
Qed.

Lemma search_snapshots_requests args up url limit :
  args !! "url" = Some url ->
  search_limit args = Ok limit ->
  snd (run (search_snapshots args) up)
  = [metadata_request WAYBACK_CDX_API
       (search_params url limit (Dict.get args "from_date" ANone)
          (Dict.get args "to_date" ANone) (Dict.get args "status_code" ANone))].
Proof.
  intros Hurl Hlim. unfold run, search_snapshots, Dict.getitem. rewrite Hurl, Hlim.
  run_handler. destruct (cdx_api up _) as [r|e]; [|reflexivity]. run_handler.
  destruct (is_success r); [|reflexivity]. destruct (body r); reflexivity.
Qed.

(** C2, as stated, fails below 1: a requested limit of 0 is sent upstream
    as 0, which is outside [1,100]. *)
Lemma search_limit_zero_sent_unclamped :
  exists params,
    snd (run (search_snapshots (<["limit" := AInt 0]> example_args)) archive_up)
    = [metadata_request WAYBACK_CDX_API params]
    /\ param "limit" params = Some (AInt 0)
    /\ ~ (1 <= 0 <= 100).
Proof.
  eexists. split; [vm_compute; reflexivity|]. split; [reflexivity|]. lia.
Qed.

(** C2 (amended). The limit [search_snapshots] sends upstream is the
    smaller of the requested integer and 100, the requested integer being
    10 when [limit] is absent: it never exceeds 100, it lies in [1,100]
    whenever the requested value is at least 1 (500 is sent as 100), and a
    requested value below 1 is sent unchanged. *)
Theorem search_limit_capped_at_100 args up url (requested : option Z) :
  args !! "url" = Some url ->
  args !! "limit" = AInt <$> requested ->
  let n := default 10 requested in
  exists params,
    snd (run (search_snapshots args) up) = [metadata_request WAYBACK_CDX_API params]
    /\ param "limit" params = Some (AInt (Z.min n 100))
    /\ Z.min n 100 <= 100
    /\ (1 <= n -> 1 <= Z.min n 100 <= 100)
    /\ (n = 500 -> Z.min n 100 = 100)
    /\ (n < 1 -> Z.min n 100 = n).
Proof.
  intros Hurl Hlimit n.
  assert (Hlim : search_limit args = Ok (Z.min n 100)).
  { unfold search_limit, Dict.get. rewrite Hlimit. by destruct requested. }
  eexists. split; [exact (search_snapshots_requests _ up _ _ Hurl Hlim)|].
  split.
  - unfold search_params. do 3 apply param_add_if. reflexivity.
  - lia.
Qed.

Lemma search_limit_capped_at_100_witness :
  exists params,
    snd (run (search_snapshots (<["limit" := AInt 500]> example_args)) archive_up)
    = [metadata_request WAYBACK_CDX_API params]
    /\ param "limit" params = Some (AInt (Z.min 500 100))
    /\ Z.min 500 100 <= 100
    /\ (1 <= 500 -> 1 <= Z.min 500 100 <= 100)
    /\ (500 = 500 -> Z.min 500 100 = 100)
    /\ (500 < 1 -> Z.min 500 100 = 500).
Proof.
  apply (search_limit_capped_at_100 (<["limit" := AInt 500]> example_args) archive_up
           (AStr "example.com") (Some 500)); reflexivity.
Defined.

Example search_limit_default :
  exists params,
    snd (run (search_snapshots example_args) archive_up)
    = [metadata_request WAYBACK_CDX_API params]
    /\ param "limit" params = Some (AInt 10).
Proof. eexists. split; [vm_compute; reflexivity|reflexivity]. Qed.

(** ** [get_snapshot_content] *)

Lemma get_snapshot_content_requests args up snapshot_url u :
  args !! "snapshot_url" = Some snapshot_url ->
  fetch_url (Dict.get args "raw" (ABool false)) snapshot_url = Ok (AStr u) ->
  snd (run (get_snapshot_content args) up) = [content_request u].
Proof.
  intros Hurl Hfetch. unfold run, get_snapshot_content, Dict.getitem. rewrite Hurl.
  run_handler. rewrite Hfetch. run_handler. unfold fetch. run_handler.
  destruct (web up _) as [r|e]; [|reflexivity]. run_handler.
  destruct (is_success r); reflexivity.
Qed.

Lemma get_snapshot_content_fetched args up snapshot_url u r :
  args !! "snapshot_url" = Some snapshot_url ->
  fetch_url (Dict.get args "raw" (ABool false)) snapshot_url = Ok (AStr u) ->
  web up (content_request u) = Ok r ->
  is_success r = true ->
  run (get_snapshot_content args) up
  = (Ok (json_result (content_result (AStr u) (body r))), [content_request u]).
Proof.
  intros Hurl Hfetch Hweb Hs. unfold run, get_snapshot_content, Dict.getitem. rewrite Hurl.
  run_handler. rewrite Hfetch. run_handler. unfold fetch. run_handler.
  rewrite Hweb. run_handler. by rewrite Hs.
Qed.

Lemma fetch_url_not_raw raw s : Py.truthy raw = false -> fetch_url raw s = Ok s.
Proof. intros H. unfold fetch_url. by rewrite H. Qed.

(** The URL rewritten for raw mode never fails on a [str]. *)
Lemma fetch_url_str raw s : exists u, fetch_url raw (AStr s) = Ok (AStr u).
Proof.
  unfold fetch_url. destruct (Py.truthy raw); [|by eexists].
  rewrite StrFacts.contains_split_once.
  destruct (Str.split_once "/web/" s) as [[p0 p1]|]; [|by eexists].
  destruct (Str.split_once "/" p1) as [[ts rest]|]; by eexists.
Qed.

(** C5. Once the page is fetched, a body of more than 50,000 characters
    comes back as its first 50,000 characters with [truncated] true, a body
    of at most 50,000 characters comes back unchanged with [truncated]
    false, and [content_length] is the length of the returned content. *)
Theorem content_truncated_at_50000 args up snapshot_url u r :
  args !! "snapshot_url" = Some snapshot_url ->
  fetch_url (Dict.get args "raw" (ABool false)) snapshot_url = Ok (AStr u) ->
  web up (content_request u) = Ok r ->
  is_success r = true ->
  exists content truncated,
    run (get_snapshot_content args) up
    = (Ok (json_result
             (JObj [("snapshot_url", JStr u);
                    ("content_length", JInt (Str.len content));
                    ("truncated", JBool truncated);
                    ("content", JStr content)])),
       [content_request u])
    /\ (50000 < Str.len (body r) ->
        truncated = true /\ Str.len content = 50000
        /\ exists rest, body r = content +:+ rest)
    /\ (Str.len (body r) <= 50000 -> truncated = false /\ content = body r).
Proof.
  intros Hurl Hfetch Hweb Hs.
  rewrite (get_snapshot_content_fetched _ _ _ _ _ Hurl Hfetch Hweb Hs).
  unfold content_result, MAX_CHARS. cbn [json_of_atom].
  destruct (Z.ltb_spec 50000 (Str.len (body r))) as [Hlong|Hshort].
  - exists (Str.take 50000 (body r)), true. split; [reflexivity|]. split; [|lia].
    intros _. split; [reflexivity|]. split.
    + rewrite StrFacts.len_take by lia. lia.
    + apply StrFacts.take_prefix.
  - exists (body r), false. split; [reflexivity|]. split; [lia|]. by intros _.
Qed.

Lemma content_truncated_at_50000_witness :
  exists content truncated,
    run (get_snapshot_content content_args) archive_long
    = (Ok (json_result
             (JObj [("snapshot_url",
                      JStr "https://web.archive.org/web/20230101120000/https://example.com");
                    ("content_length", JInt (Str.len content));
                    ("truncated", JBool truncated);
                    ("content", JStr content)])),
       [content_request "https://web.archive.org/web/20230101120000/https://example.com"])
    /\ (50000 < Str.len (body long_response) ->
        truncated = true /\ Str.len content = 50000
        /\ exists rest, body long_response = content +:+ rest)
    /\ (Str.len (body long_response) <= 50000 ->
        truncated = false /\ content = body long_response).
Proof.
  apply (content_truncated_at_50000 content_args archive_long
           (AStr "https://web.archive.org/web/20230101120000/https://example.com")
           "https://web.archive.org/web/20230101120000/https://example.com" long_response).
  - vm_compute. reflexivity.
  - vm_compute. reflexivity.
  - reflexivity.
  - vm_compute. reflexivity.
Defined.

Example long_page_truncated :
  Str.len long_page = 50001
  /\ exists content,
       content_result (AStr "https://web.archive.org/web/2023/http://example.com") long_page
       = JObj [("snapshot_url", JStr "https://web.archive.org/web/2023/http://example.com");
               ("content_length", JInt 50000);
               ("truncated", JBool true);
               ("content", JStr content)]
       /\ long_page = content +:+ "a".
Proof.
  split; [vm_compute; reflexivity|].
  exists (Str.take MAX_CHARS long_page). split.
  - unfold content_result.
    assert (Hlong : (MAX_CHARS <? Str.len long_page) = true) by (vm_compute; reflexivity).
    assert (Hlen : Str.len (Str.take MAX_CHARS long_page) = 50000) by (vm_compute; reflexivity).
    by rewrite Hlong, Hlen.
  - apply String.eqb_eq. vm_compute. reflexivity.
Qed.

Example short_page_unchanged :
  run (get_snapshot_content content_args) archive_up
  = (Ok (json_result
           (JObj [("snapshot_url",
                    JStr "https://web.archive.org/web/20230101120000/https://example.com");
                  ("content_length", JInt 27);
                  ("truncated", JBool false);
                  ("content", JStr "<html>Example Domain</html>")])),
     [content_request "https://web.archive.org/web/20230101120000/https://example.com"]).
Proof. vm_compute. reflexivity. Qed.

(** *** Raw mode *)

Lemma split_web prefix rest :
  Str.contains "/web/" (prefix +:+ "/web") = false ->
  Str.split_once "/web/" (prefix +:+ "/web/" +:+ rest) = Some (prefix, rest).
Proof. exact (StrFacts.split_once_leftmost "/web" "/" prefix rest). Qed.

Lemma split_slash ts rest :
  Str.contains "/" ts = false ->
  Str.split_once "/" (ts +:+ "/" +:+ rest) = Some (ts, rest).
Proof.
  intros H. apply (StrFacts.split_once_leftmost EmptyString "/" ts rest).
  by rewrite StrFacts.app_empty_r.
Qed.

Lemma fetch_url_raw raw prefix ts original :
  Py.truthy raw = true ->
  Str.contains "/web/" (prefix +:+ "/web") = false ->
  Str.contains "/" ts = false ->
  fetch_url raw (AStr (prefix +:+ "/web/" +:+ ts +:+ "/" +:+ original))
  = Ok (AStr (prefix +:+ "/web/" +:+ ts +:+ "id_/" +:+ original)).
Proof.
  intros Hraw Hweb Hts. unfold fetch_url. rewrite Hraw.
  rewrite StrFacts.contains_split_once, (split_web _ _ Hweb).
  by rewrite (split_slash _ _ Hts).
Qed.

Lemma fetch_url_unchanged raw s :
  Str.contains "/web/" s = false
  \/ (exists a b, s = a +:+ "/web/" +:+ b
                  /\ Str.contains "/web/" (a +:+ "/web") = false
                  /\ Str.contains "/" b = false) ->
  fetch_url raw (AStr s) = Ok (AStr s).
Proof.
  intros H. unfold fetch_url. destruct (Py.truthy raw); [|reflexivity].
  destruct H as [H|(a & b & -> & Hweb & Hb)].
  - by rewrite H.
  - rewrite StrFacts.contains_split_once, (split_web _ _ Hweb).
    by rewrite (StrFacts.split_once_absent _ _ Hb).
Qed.

(** C6. With [raw] true, a snapshot URL [<prefix>/web/<timestamp>/<original>]
    is fetched as [<prefix>/web/<timestamp>id_/<original>]: the [id_] flag
    goes right behind the timestamp.  The form is read as the code splits
    it: [/web/] behind [prefix] is the first [/web/] of the URL, and the
    timestamp is one path segment (it holds no [/]). *)
Theorem raw_inserts_id_flag args up prefix ts original :
  args !! "snapshot_url" = Some (AStr (prefix +:+ "/web/" +:+ ts +:+ "/" +:+ original)) ->
  args !! "raw" = Some (ABool true) ->
  Str.contains "/web/" (prefix +:+ "/web") = false ->
  Str.contains "/" ts = false ->
  snd (run (get_snapshot_content args) up)
  = [content_request (prefix +:+ "/web/" +:+ ts +:+ "id_/" +:+ original)].
Proof.
  intros Hurl Hraw Hweb Hts.
  apply (get_snapshot_content_requests _ _ _ _ Hurl).
  unfold Dict.get. rewrite Hraw. by apply fetch_url_raw.
Qed.

Lemma raw_inserts_id_flag_witness :
  snd (run (get_snapshot_content raw_args) archive_up)
  = [content_request "https://web.archive.org/web/20230101120000id_/https://example.com"].
Proof.
  apply (raw_inserts_id_flag raw_args archive_up
           "https://web.archive.org" "20230101120000" "https://example.com");
    reflexivity.
Defined.

(** C10. With [raw] true, a snapshot URL that does not hold [/web/], or
    whose part behind the first [/web/] holds no further [/], is fetched
    unchanged, and the handler goes on as usual: when the archive answers
    the fetch with a success status, the normal result for that URL comes
    back. *)
Theorem raw_leaves_url_without_timestamp_segment args up s :
  args !! "snapshot_url" = Some (AStr s) ->
  args !! "raw" = Some (ABool true) ->
  Str.contains "/web/" s = false
  \/ (exists a b, s = a +:+ "/web/" +:+ b
                  /\ Str.contains "/web/" (a +:+ "/web") = false
                  /\ Str.contains "/" b = false) ->
  snd (run (get_snapshot_content args) up) = [content_request s]
  /\ (forall r, web up (content_request s) = Ok r ->
                is_success r = true ->
                fst (run (get_snapshot_content args) up)
                = Ok (json_result (content_result (AStr s) (body r)))).
Proof.
  intros Hurl Hraw Hform.
  assert (Hfetch : fetch_url (Dict.get args "raw" (ABool false)) (AStr s) = Ok (AStr s))
    by (by apply fetch_url_unchanged).
  split.
  - exact (get_snapshot_content_requests _ _ _ _ Hurl Hfetch).
  - intros r Hweb Hs. by rewrite (get_snapshot_content_fetched _ _ _ _ _ Hurl Hfetch Hweb Hs).
Qed.

Lemma raw_leaves_url_without_timestamp_segment_witness :
  snd (run (get_snapshot_content
              {[ "snapshot_url" := AStr "https://web.archive.org/web/20230101120000";
                 "raw" := ABool true ]}) archive_up)
  = [content_request "https://web.archive.org/web/20230101120000"]
  /\ (forall r, web archive_up (content_request "https://web.archive.org/web/20230101120000") = Ok r ->
                is_success r = true ->
                fst (run (get_snapshot_content
                            {[ "snapshot_url" := AStr "https://web.archive.org/web/20230101120000";
                               "raw" := ABool true ]}) archive_up)
                = Ok (json_result
                        (content_result (AStr "https://web.archive.org/web/20230101120000") (body r)))).
Proof.
  apply (raw_leaves_url_without_timestamp_segment _ archive_up
           "https://web.archive.org/web/20230101120000").
  - reflexivity.
  - reflexivity.
  - right. exists "https://web.archive.org", "20230101120000". repeat split; reflexivity.
Defined.

Example raw_leaves_plain_url :
  run (get_snapshot_content {[ "snapshot_url" := AStr "https://example.com/page"; "raw" := ABool true ]})
    archive_up
  = (Ok (json_result
           (JObj [("snapshot_url", JStr "https://example.com/page");
                  ("content_length", JInt 27);
                  ("truncated", JBool false);
                  ("content", JStr "<html>Example Domain</html>")])),
     [content_request "https://example.com/page"]).
Proof. vm_compute. reflexivity. Qed.

(** ** [search_snapshots]: header row and data rows *)

Lemma zip_lookup headers row (j : nat) h v :
  zip headers row !! j = Some (h, v) <-> headers !! j = Some h /\ row !! j = Some v.
Proof.
  revert row j. induction headers as [|h0 headers IH]; intros row j.
  - cbn [zip]. rewrite !lookup_nil. split; [done|by intros [? ?]].
  - destruct row as [|v0 row]; cbn [zip].
    + rewrite !lookup_nil. split; [done|by intros [? ?]].
    + destruct j as [|j]; cbn [lookup list_lookup].
      * split; [by intros [= -> ->]|by intros [[= ->] [= ->]]].
      * apply IH.
Qed.

Lemma of_pairs_snoc l k v : Dict.of_pairs (l ++ [(k, v)]) = <[k := v]> (Dict.of_pairs l).
Proof. unfold Dict.of_pairs. by rewrite foldl_snoc. Qed.

(** [dict(pairs)] keeps, for every key, the value of its last pair. *)
Lemma of_pairs_lookup (l : list (string * string)) k :
  match Dict.of_pairs l !! k with
  | Some v =>
      exists j : nat, l !! j = Some (k, v)
                      /\ forall (j' : nat) v', (j < j')%nat -> l !! j' <> Some (k, v')
  | None => forall (j : nat) v, l !! j <> Some (k, v)
  end.
Proof.
  induction l as [|[k0 v0] l IH] using rev_ind.
  - unfold Dict.of_pairs. cbn [foldl]. rewrite lookup_empty. intros j v. by rewrite lookup_nil.
  - rewrite of_pairs_snoc. destruct (decide (k0 = k)) as [->|Hne].
    + rewrite lookup_insert_eq. exists (length l). split.
      * by rewrite lookup_app_r, Nat.sub_diag by lia.
      * intros j' v' Hlt. rewrite lookup_ge_None_2; [done|]. rewrite length_app. cbn. lia.
    + rewrite lookup_insert_ne by done.
      assert (Hlast : forall (j : nat) v, (length l <= j)%nat -> (l ++ [(k0, v0)]) !! j <> Some (k, v)).
      { intros j v Hj. destruct (decide (j = length l)) as [->|Hj'].
        - rewrite lookup_app_r, Nat.sub_diag by lia. cbn. congruence.
        - rewrite lookup_ge_None_2; [done|]. rewrite length_app. cbn. lia. }
      destruct (Dict.of_pairs l !! k) as [v|].
      * destruct IH as (j & Hj & Hlater). exists j. split.
        -- rewrite lookup_app_l; [done|]. by eapply lookup_lt_Some.
        -- intros j' v' Hlt. destruct (decide (j' < length l)%nat).
           ++ rewrite lookup_app_l by done. by apply Hlater.
           ++ apply Hlast. lia.
      * intros j v. destruct (decide (j < length l)%nat).
        -- rewrite lookup_app_l by done. apply IH.
        -- apply Hlast. lia.
Qed.

Lemma entry_cell_under headers row k :
  cell_under headers row k
    (Dict.get_str (Dict.of_pairs (zip headers row)) k EmptyString).
Proof.
  unfold cell_under, Dict.get_str.
  pose proof (of_pairs_lookup (zip headers row) k) as H.
  destruct (Dict.of_pairs (zip headers row) !! k) as [v|].
  - left. destruct H as (j & Hj & Hlater). apply zip_lookup in Hj as [Hh Hv].
    exists j. repeat split; [done..|]. intros j' Hlt Hh'.
    destruct (row !! j') as [v'|] eqn:Hv'; [|done].
    destruct (Hlater j' v' Hlt). by apply zip_lookup.
  - right. split; [|done]. intros j Hh.
    destruct (row !! j) as [v|] eqn:Hv; [|done].
    destruct (H j v). by apply zip_lookup.
Qed.

Lemma search_snapshots_answered args up url limit r raw :
  args !! "url" = Some url ->
  search_limit args = Ok limit ->
  let req := metadata_request WAYBACK_CDX_API
               (search_params url limit (Dict.get args "from_date" ANone)
                  (Dict.get args "to_date" ANone) (Dict.get args "status_code" ANone)) in
  cdx_api up req = Ok r ->
  is_success r = true ->
  body r = Ok raw ->
  run (search_snapshots args) up = (Ok (json_result (search_result url raw)), [req]).
Proof.
  intros Hurl Hlim req Hcdx Hs Hbody.
  unfold run, search_snapshots, Dict.getitem. rewrite Hurl, Hlim. run_handler.
  fold req. rewrite Hcdx. run_handler. by rewrite Hs, Hbody.
Qed.

(** C7. When the CDX answer of [search_snapshots] is an empty array or a
    header row alone, the tool returns the normal result with
    [total_found] 0 and no snapshots; when it is a header row followed by
    [n] rows, [total_found] is [n] and the [i]-th snapshot record is built
    from the [i]-th row, each of its fields being the cell of the row under
    the header name of that field. *)
Theorem search_snapshots_rows args up url limit r raw :
  args !! "url" = Some url ->
  search_limit args = Ok limit ->
  let req := metadata_request WAYBACK_CDX_API
               (search_params url limit (Dict.get args "from_date" ANone)
                  (Dict.get args "to_date" ANone) (Dict.get args "status_code" ANone)) in
  cdx_api up req = Ok r ->
  is_success r = true ->
  body r = Ok raw ->
  exists total snapshots,
    run (search_snapshots args) up
    = (Ok (json_result
             (JObj [("url", json_of_atom url);
                    ("total_found", JInt total);
                    ("snapshots", JArr snapshots)])),
       [req])
    /\ ((length raw < 2)%nat -> total = 0 /\ snapshots = [])
    /\ (forall headers rows,
          raw = headers :: rows ->
          total = Z.of_nat (length rows)
          /\ length snapshots = length rows
          /\ forall (i : nat) row,
               rows !! i = Some row ->
               exists ts original statuscode mimetype size,
                 snapshots !! i
                 = Some (JObj [("timestamp", JStr ts);
                               ("formatted_time", JStr (_format_timestamp ts));
                               ("snapshot_url",
                                 JStr (WAYBACK_BASE_URL +:+ "/" +:+ ts +:+ "/" +:+ original));
                               ("original_url", JStr original);
                               ("status_code", JStr statuscode);
                               ("mime_type", JStr mimetype);
                               ("size_bytes", JStr size)])
                 /\ cell_under headers row "timestamp" ts
                 /\ cell_under headers row "original" original
                 /\ cell_under headers row "statuscode" statuscode
                 /\ cell_under headers row "mimetype" mimetype
                 /\ cell_under headers row "length" size).
Proof.
  intros Hurl Hlim req Hcdx Hs Hbody.
  rewrite (search_snapshots_answered _ _ _ _ _ _ Hurl Hlim Hcdx Hs Hbody).
  unfold search_result.
  destruct raw as [|headers [|row1 rows]].
  - exists 0, []. split; [reflexivity|]. split; [done|]. intros ? ? [=].
  - exists 0, []. split; [reflexivity|]. split; [done|].
    intros ? ? [= <- <-]. repeat split. intros i row. by rewrite lookup_nil.
  - assert (Hlen : negb (nonempty (headers :: row1 :: rows))
                   || (len (headers :: row1 :: rows) <? 2) = false).
    { unfold len. cbn [nonempty negb orb length]. apply Z.ltb_ge. lia. }
    rewrite Hlen. cbn [hd tl].
    eexists _, _. split; [reflexivity|]. split; [cbn [length]; lia|].
    intros ? ? [= <- <-]. unfold len. rewrite length_map. repeat split.
    intros i row Hrow. rewrite list_lookup_fmap, Hrow. cbn [fmap option_fmap option_map].
    eexists _, _, _, _, _. split; [reflexivity|].
    repeat split; apply entry_cell_under.
Qed.

Lemma search_snapshots_rows_witness :
  exists total snapshots,
    run (search_snapshots example_args) archive_index
    = (Ok (json_result
             (JObj [("url", JStr "example.com");
                    ("total_found", JInt total);
                    ("snapshots", JArr snapshots)])),
       [metadata_request WAYBACK_CDX_API
          [("url", AStr "example.com"); ("output", AStr "json");
           ("fl", AStr "timestamp,original,statuscode,mimetype,length");
           ("limit", AInt 10)]])
    /\ ((length index_rows < 2)%nat -> total = 0 /\ snapshots = [])
    /\ (forall headers rows,
          index_rows = headers :: rows ->
          total = Z.of_nat (length rows)
          /\ length snapshots = length rows
          /\ forall (i : nat) row,
               rows !! i = Some row ->
               exists ts original statuscode mimetype size,
                 snapshots !! i
                 = Some (JObj [("timestamp", JStr ts);
                               ("formatted_time", JStr (_format_timestamp ts));
                               ("snapshot_url",
                                 JStr (WAYBACK_BASE_URL +:+ "/" +:+ ts +:+ "/" +:+ original));
                               ("original_url", JStr original);
                               ("status_code", JStr statuscode);
                               ("mime_type", JStr mimetype);
                               ("size_bytes", JStr size)])
                 /\ cell_under headers row "timestamp" ts
                 /\ cell_under headers row "original" original
                 /\ cell_under headers row "statuscode" statuscode
                 /\ cell_under headers row "mimetype" mimetype
                 /\ cell_under headers row "length" size).
Proof.
  apply (search_snapshots_rows example_args archive_index (AStr "example.com") 10
           index_response index_rows); reflexivity.
Defined.

Example search_snapshots_sample :
  run (call_tool "search_snapshots" example_args) archive_index
  = (Ok (json_result
           (JObj [("url", JStr "example.com");
                  ("total_found", JInt 2);
                  ("snapshots",
                    JArr [JObj [("timestamp", JStr "20230101120000");
                                ("formatted_time", JStr "2023-01-01 12:00:00 UTC");
                                ("snapshot_url",
                                  JStr "https://web.archive.org/web/20230101120000/http://example.com/");
                                ("original_url", JStr "http://example.com/");
                                ("status_code", JStr "200");
                                ("mime_type", JStr "text/html");
                                ("size_bytes", JStr "1234")];
                          JObj [("timestamp", JStr "20230202");
                                ("formatted_time", JStr "2023-02-02 00:00:00 UTC");
                                ("snapshot_url",
                                  JStr "https://web.archive.org/web/20230202/http://example.com/");
                                ("original_url", JStr "http://example.com/");
                                ("status_code", JStr "301");
                                ("mime_type", JStr "text/html");
                                ("size_bytes", JStr "100")]])])),
     [metadata_request WAYBACK_CDX_API
        [("url", AStr "example.com"); ("output", AStr "json");
         ("fl", AStr "timestamp,original,statuscode,mimetype,length");
         ("limit", AInt 10)]]).
Proof. vm_compute. reflexivity. Qed.

Example search_snapshots_header_only :
  fst (run (call_tool "search_snapshots" example_args) archive_empty)
  = Ok (json_result
          (JObj [("url", JStr "example.com"); ("total_found", JInt 0); ("snapshots", JArr [])])).
Proof. vm_compute. reflexivity. Qed.

(** ** [_format_timestamp] *)

Lemma pad2_len n : Str.len (Datetime.pad2 n) = 2.
Proof. reflexivity. Qed.

(** A rendering is the year and 19 characters behind it. *)
Lemma strftime_len dt :
  Str.len (Datetime.strftime_iso_utc dt) = Str.len (pretty (Datetime.year dt)) + 19.
Proof.
  unfold Datetime.strftime_iso_utc.
  rewrite !StrFacts.len_app, !pad2_len. cbn [Str.len]. lia.
Qed.

Lemma strftime_len_ge dt : 19 <= Str.len (Datetime.strftime_iso_utc dt).
Proof.
  rewrite strftime_len. pose proof (StrFacts.len_nonneg (pretty (Datetime.year dt))). lia.
Qed.

Lemma strptime_valid s dt :
  Datetime.strptime_YmdHMS s = Ok dt -> Datetime.valid dt = true.
Proof.
  unfold Datetime.strptime_YmdHMS.
  destruct (Datetime.match_groups _ s) as [[fields rest]|]; [|discriminate].
  do 7 (destruct fields as [|? fields]; try discriminate).
  destruct (negb (Str.len rest =? 0)); [discriminate|].
  match goal with |- context [Datetime.valid ?d] => destruct (Datetime.valid d) eqn:Hv end;
    [|discriminate].
  by intros [= <-].
Qed.

(** [_format_timestamp] is total, and has two outcomes: the rendering of
    the date and time parsed from the first 14 characters of the padded
    input, or, when those do not parse, the padded input. *)
Lemma format_timestamp_cases ts :
  let padded := Str.ljust 14 "0" ts in
  (exists dt, Datetime.strptime_YmdHMS (Str.take 14 padded) = Ok dt
              /\ Datetime.valid dt = true
              /\ _format_timestamp ts = Datetime.strftime_iso_utc dt)
  \/ ((exists e, Datetime.strptime_YmdHMS (Str.take 14 padded) = Raise e)
      /\ _format_timestamp ts = padded).
Proof.
  intros padded. unfold _format_timestamp. fold padded.
  destruct (Datetime.strptime_YmdHMS (Str.take 14 padded)) as [dt|e] eqn:Hparse.
  - left. exists dt. repeat split. by apply (strptime_valid _ _ Hparse).
  - right. split; [by exists e|reflexivity].
Qed.

Lemma ljust_long width fill s : width <= Str.len s -> Str.ljust width fill s = s.
Proof.
  intros H. unfold Str.ljust.
  replace (Z.to_nat (width - Str.len s)) with 0%nat by lia.
  apply StrFacts.app_empty_r.
Qed.

Lemma ljust_len width fill s :
  Str.len (Str.ljust width fill s) = Z.max width (Str.len s).
Proof.
  unfold Str.ljust. rewrite StrFacts.len_app, StrFacts.len_replicate.
  pose proof (StrFacts.len_nonneg s). lia.
Qed.

(** An input of 14 characters or more that does not parse comes back
    unchanged: padding leaves it as it is. *)
Lemma format_timestamp_long ts :
  14 <= Str.len ts ->
  (exists dt, Datetime.valid dt = true /\ _format_timestamp ts = Datetime.strftime_iso_utc dt)
  \/ _format_timestamp ts = ts.
Proof.
  intros Hlen. destruct (format_timestamp_cases ts) as [(dt & _ & Hv & ->)|[_ ->]].
  - left. by exists dt.
  - right. by apply ljust_long.
Qed.

Lemma format_timestamp_long_witness :
  (exists dt, Datetime.valid dt = true
              /\ _format_timestamp "20231301000000" = Datetime.strftime_iso_utc dt)
  \/ _format_timestamp "20231301000000" = "20231301000000".
Proof.
  apply (format_timestamp_long "20231301000000"). vm_compute. discriminate.
Defined.

(** C4. The code at the 4-digit timestamp [2023]: padding gives
    [20230000000000], whose month [00] does not parse, and the handler
    returns the padded string, which is neither the input nor a rendering
    [YYYY-MM-DD HH:MM:SS UTC]. *)
Theorem format_timestamp_returns_padded_input :
  _format_timestamp "2023" = "20230000000000"
  /\ _format_timestamp "2023" <> "2023"
  /\ (forall dt, _format_timestamp "2023" <> Datetime.strftime_iso_utc dt).
Proof.
  split; [vm_compute; reflexivity|]. split; [vm_compute; discriminate|].
  intros dt H. apply (f_equal Str.len) in H. pose proof (strftime_len_ge dt) as Hlen.
  rewrite <- H in Hlen. vm_compute in Hlen. by apply Hlen.
Qed.

(** *** Valid 14-digit timestamps parse to their fields *)

Lemma match_alternative_app a f m r rest :
  Datetime.match_alternative a f = Some (m, r) ->
  Datetime.match_alternative a (f +:+ rest) = Some (m, r +:+ rest).
Proof.
  revert f m r. induction a as [|p a IH]; intros f m r.
  - cbn [Datetime.match_alternative]. destruct f; by intros [= <- <-].
  - destruct f as [|c f]; cbn [Datetime.match_alternative]; [discriminate|].
    rewrite StrFacts.app_cons. cbn [Datetime.match_alternative].
    destruct (p c); [|discriminate].
    destruct (Datetime.match_alternative a f) as [[m' r']|] eqn:E; [|discriminate].
    intros [= <- <-]. by rewrite (IH _ _ _ E).
Qed.

Lemma match_alternative_app_none a f rest :
  Datetime.match_alternative a f = None ->
  len a <= Str.len f ->
  Datetime.match_alternative a (f +:+ rest) = None.
Proof.
  revert f. induction a as [|p a IH]; intros f.
  - cbn [Datetime.match_alternative]. by destruct f.
  - unfold len. destruct f as [|c f]; cbn [Datetime.match_alternative length Str.len].
    + lia.
    + rewrite StrFacts.app_cons. cbn [Datetime.match_alternative].
      destruct (p c); [|done].
      destruct (Datetime.match_alternative a f) as [[m' r']|] eqn:E; [discriminate|].
      intros _ Hlen. rewrite IH; [done..|]. unfold len. lia.
Qed.

Lemma match_alternative_whole a f m r :
  Datetime.match_alternative a f = Some (m, r) -> f = m +:+ r.
Proof.
  revert f m r. induction a as [|p a IH]; intros f m r.
  - cbn [Datetime.match_alternative]. destruct f; by intros [= <- <-].
  - destruct f as [|c f]; cbn [Datetime.match_alternative]; [discriminate|].
    destruct (p c); [|discriminate].
    destruct (Datetime.match_alternative a f) as [[m' r']|] eqn:E; [|discriminate].
    intros [= <- <-]. by rewrite StrFacts.app_cons, <- (IH _ _ _ E).
Qed.

Lemma len_zero s : Str.len s = 0 -> s = EmptyString.
Proof. destruct s; [done|]. cbn [Str.len]. pose proof (StrFacts.len_nonneg s). lia. Qed.

Lemma match_groups_eq g gs s :
  Datetime.match_groups (g :: gs) s =
  match g with
  | [] => None
  | a :: g' =>
      match Datetime.match_alternative a s with
      | Some (m, rest) =>
          match Datetime.match_groups gs rest with
          | Some (ms, r) => Some (m :: ms, r)
          | None => Datetime.match_groups (g' :: gs) s
          end
      | None => Datetime.match_groups (g' :: gs) s
      end
  end.
Proof. by destruct g. Qed.

(** A field that passes [field_ok] is matched by its group as a whole,
    whatever follows it, once the groups behind it match what follows. *)
Lemma field_ok_sound g f gs rest ms r :
  field_ok g f = true ->
  Datetime.match_groups gs rest = Some (ms, r) ->
  Datetime.match_groups (g :: gs) (f +:+ rest) = Some (f :: ms, r).
Proof.
  intros Hok Hrest. induction g as [|a g IH]; [discriminate|].
  rewrite match_groups_eq. cbn [field_ok] in Hok.
  destruct (Datetime.match_alternative a f) as [[m r']|] eqn:E.
  - apply Z.eqb_eq, len_zero in Hok. subst r'.
    rewrite (match_alternative_app _ _ _ _ rest E), StrFacts.app_nil_l, Hrest.
    apply match_alternative_whole in E. rewrite StrFacts.app_empty_r in E. by subst.
  - apply andb_prop in Hok as [Hlen Hok]. apply Z.leb_le in Hlen.
    rewrite (match_alternative_app_none _ _ rest E Hlen). by apply IH.
Qed.

Lemma field_round_trip_range g render lo n v :
  forallb (field_round_trip g render) (seqZ lo n) = true ->
  lo <= v < lo + n ->
  field_ok g (render v) = true /\ Datetime.field (render v) = v.
Proof.
  intros Hall Hv. rewrite forallb_forall in Hall.
  assert (Hin : In v (seqZ lo n)) by (apply list_elem_of_In, elem_of_seqZ; lia).
  apply Hall, andb_prop in Hin as [H1 H2]. split; [done|]. by apply Z.eqb_eq.
Qed.

Lemma days_in_month_le y m : Datetime.days_in_month y m <= 31.
Proof.
  unfold Datetime.days_in_month.
  repeat match goal with |- context [if ?b then _ else _] => destruct b end; lia.
Qed.

(** The year is read digit by digit; the other fields are checked over
    their ranges. *)
Lemma digit_char_facts x :
  0 <= x <= 9 ->
  Str.is_digit (Str.digit_char x) = true
  /\ Str.digit_value (Str.digit_char x) = x
  /\ Str.is_space (Str.digit_char x) = false
  /\ Ascii.eqb (Str.digit_char x) "_" = false.
Proof.
  intros Hx.
  assert (H : x = 0 \/ x = 1 \/ x = 2 \/ x = 3 \/ x = 4 \/ x = 5 \/ x = 6 \/ x = 7
              \/ x = 8 \/ x = 9) by lia.
  repeat destruct H as [->|H]; try subst x; by vm_compute.
Qed.

Lemma literal_unsigned c s :
  Str.is_digit c = true ->
  Str.strip (String c s) = String c s ->
  Py.literal (String c s) = Py.digits 0 0 false (String c s).
Proof.
  intros Hd Hs. unfold Py.literal. rewrite Hs.
  destruct c as [[] [] [] [] [] [] [] []]; try reflexivity; vm_compute in Hd; discriminate Hd.
Qed.

Lemma strip_four c1 c2 c3 c4 :
  Str.is_space c1 = false ->
  Str.is_space c4 = false ->
  Str.strip (String c1 (String c2 (String c3 (String c4 EmptyString))))
  = String c1 (String c2 (String c3 (String c4 EmptyString))).
Proof.
  intros H1 H4. unfold Str.strip, Str.rev. cbn [Str.lstrip]. rewrite H1.
  cbn [Str.rev_onto Str.lstrip]. rewrite H4. reflexivity.
Qed.

Lemma year_round_trip y :
  1 <= y <= 9999 ->
  field_ok Datetime.re_Y (Datetime.pad4 y) = true /\ Datetime.field (Datetime.pad4 y) = y.
Proof.
  intros Hy. unfold Datetime.pad4, Datetime.pad2.
  rewrite !StrFacts.app_cons, StrFacts.app_nil_l.
  set (a := y / 100 / 10 mod 10). set (b := y / 100 mod 10).
  set (c := y / 10 mod 10). set (d := y mod 10).
  assert (Hval : 10 * (10 * (10 * (10 * 0 + a) + b) + c) + d = y) by (unfold a, b, c, d; Z.div_mod_to_equations; lia).
  assert (Hdigit : forall n, 0 <= n mod 10 <= 9)
    by (intros n; pose proof (Z.mod_pos_bound n 10); lia).
  destruct (digit_char_facts a) as (Ha1 & Ha2 & Ha3 & Ha4); [apply Hdigit|].
  destruct (digit_char_facts b) as (Hb1 & Hb2 & Hb3 & Hb4); [apply Hdigit|].
  destruct (digit_char_facts c) as (Hc1 & Hc2 & Hc3 & Hc4); [apply Hdigit|].
  destruct (digit_char_facts d) as (Hd1 & Hd2 & Hd3 & Hd4); [apply Hdigit|].
  split.
  - cbn [field_ok Datetime.re_Y Datetime.match_alternative]. unfold Datetime.digit.
    rewrite Ha1, Hb1, Hc1, Hd1. reflexivity.
  - unfold Datetime.field, Py.int_of_str.
    rewrite literal_unsigned by (by rewrite ?strip_four).
    cbn [Py.digits]. rewrite Ha1, Hb1, Hc1, Hd1, Ha2, Hb2, Hc2, Hd2.
    replace (Py.int_max_str_digits <? 0 + 1 + 1 + 1 + 1) with false by reflexivity.
    exact Hval.
Qed.

(** A valid date and time, written as 14 digits, parses to itself. *)
Lemma strptime_compact dt :
  Datetime.valid dt = true -> Datetime.strptime_YmdHMS (compact dt) = Ok dt.
Proof.
  intros Hvalid. pose proof Hvalid as Hv. unfold Datetime.valid in Hv.
  repeat (apply andb_prop in Hv as [Hv ?]).
  repeat match goal with H : (_ <=? _) = true |- _ => apply Z.leb_le in H end.
  pose proof (days_in_month_le (Datetime.year dt) (Datetime.month dt)).
  destruct dt as [y m d h mi s]. cbn [Datetime.year Datetime.month Datetime.day
    Datetime.hour Datetime.minute Datetime.second] in *.
  assert (Hm : forallb (field_round_trip Datetime.re_m Datetime.pad2) (seqZ 1 12) = true)
    by (vm_compute; reflexivity).
  assert (Hd : forallb (field_round_trip Datetime.re_d Datetime.pad2) (seqZ 1 31) = true)
    by (vm_compute; reflexivity).
  assert (HH : forallb (field_round_trip Datetime.re_H Datetime.pad2) (seqZ 0 24) = true)
    by (vm_compute; reflexivity).
  assert (HM : forallb (field_round_trip Datetime.re_M Datetime.pad2) (seqZ 0 60) = true)
    by (vm_compute; reflexivity).
  assert (HS : forallb (field_round_trip Datetime.re_S Datetime.pad2) (seqZ 0 60) = true)
    by (vm_compute; reflexivity).
  destruct (year_round_trip y) as [Y1 Y2]; [lia|].
  destruct (field_round_trip_range _ _ _ _ m Hm) as [m1 m2]; [lia|].
  destruct (field_round_trip_range _ _ _ _ d Hd) as [d1 d2]; [lia|].
  destruct (field_round_trip_range _ _ _ _ h HH) as [h1 h2]; [lia|].
  destruct (field_round_trip_range _ _ _ _ mi HM) as [M1 M2]; [lia|].
  destruct (field_round_trip_range _ _ _ _ s HS) as [S1 S2]; [lia|].
  unfold Datetime.strptime_YmdHMS, compact.
  cbn [Datetime.year Datetime.month Datetime.day Datetime.hour Datetime.minute Datetime.second].
  rewrite <- (StrFacts.app_empty_r (Datetime.pad2 s)).
  rewrite (field_ok_sound _ _ _ _ [Datetime.pad2 m; Datetime.pad2 d; Datetime.pad2 h;
                                    Datetime.pad2 mi; Datetime.pad2 s] EmptyString Y1).
  - cbn [Str.len Z.eqb negb]. rewrite Y2, m2, d2, h2, M2, S2, Hvalid. reflexivity.
  - do 5 (apply field_ok_sound; [done|]). reflexivity.
Qed.

Lemma compact_len dt : Str.len (compact dt) = 14.
Proof.
  unfold compact, Datetime.pad4. rewrite !StrFacts.len_app, !pad2_len. reflexivity.
Qed.

(** *** The year of a rendering *)

Lemma pretty_digit d :
  0 <= d <= 9 -> pretty_N_char (Z.to_N d) = Str.digit_char d.
Proof.
  intros Hd.
  assert (H : d = 0 \/ d = 1 \/ d = 2 \/ d = 3 \/ d = 4 \/ d = 5 \/ d = 6 \/ d = 7
              \/ d = 8 \/ d = 9) by lia.
  repeat destruct H as [->|H]; try subst d; reflexivity.
Qed.

Lemma pretty_go_digit x s :
  (0 < x)%N ->
  pretty_N_go x s
  = pretty_N_go (N.div x 10) (String (Str.digit_char (Z.of_N x mod 10)) s).
Proof.
  intros Hx. rewrite pretty_N_go_step by done. f_equal. f_equal.
  rewrite <- pretty_digit.
  - f_equal. rewrite <- (N2Z.id (x `mod` 10)%N). f_equal. by rewrite N2Z.inj_mod.
  - pose proof (Z.mod_pos_bound (Z.of_N x) 10). lia.
Qed.

(** From the year 1000 on, the year is written with its four digits. *)
Lemma pretty_four_digits y : 1000 <= y <= 9999 -> pretty y = Datetime.pad4 y.
Proof.
  intros Hy. destruct y as [|p|p]; [lia| |lia].
  change (pretty (Z.pos p)) with (pretty (N.pos p)).
  unfold pretty, pretty_N. rewrite decide_False by done.
  assert (Hdiv : forall x : N, Z.of_N (N.div x 10) = Z.of_N x / 10)
    by (intros x; by rewrite N2Z.inj_div).
  rewrite pretty_go_digit by lia.
  rewrite pretty_go_digit by (apply N2Z.inj_lt; rewrite Hdiv; cbn; Z.div_mod_to_equations; lia).
  rewrite pretty_go_digit
    by (apply N2Z.inj_lt; rewrite !Hdiv; cbn; Z.div_mod_to_equations; lia).
  rewrite pretty_go_digit
    by (apply N2Z.inj_lt; rewrite !Hdiv; cbn; Z.div_mod_to_equations; lia).
  replace (N.div (N.div (N.div (N.div (N.pos p) 10) 10) 10) 10) with 0%N
    by (apply N2Z.inj; rewrite !Hdiv; cbn; Z.div_mod_to_equations; lia).
  rewrite pretty_N_go_0, !Hdiv. change (Z.of_N (N.pos p)) with (Z.pos p).
  unfold Datetime.pad4, Datetime.pad2. rewrite !StrFacts.app_cons, StrFacts.app_nil_l.
  assert (E3 : Z.pos p / 10 / 10 / 10 mod 10 = Z.pos p / 100 / 10 mod 10)
    by (Z.div_mod_to_equations; lia).
  assert (E2 : Z.pos p / 10 / 10 mod 10 = Z.pos p / 100 mod 10)
    by (Z.div_mod_to_equations; lia).
  by rewrite E3, E2.
Qed.

(** Before the year 1000 the year has fewer than four digits. *)
Lemma pretty_short_year y : 1 <= y < 1000 -> Str.len (pretty y) <= 3.
Proof.
  intros Hy. destruct y as [|p|p]; [lia| |lia].
  change (pretty (Z.pos p)) with (pretty (N.pos p)).
  unfold pretty, pretty_N. rewrite decide_False by done.
  assert (Hdiv : forall x : N, Z.of_N (N.div x 10) = Z.of_N x / 10)
    by (intros x; by rewrite N2Z.inj_div).
  rewrite pretty_go_digit by lia.
  destruct (decide (Z.pos p < 10)) as [H1|H1].
  { replace (N.div (N.pos p) 10) with 0%N
      by (apply N2Z.inj; rewrite !Hdiv; cbn; Z.div_mod_to_equations; lia).
    rewrite pretty_N_go_0. cbn [Str.len]. lia. }
  rewrite pretty_go_digit by (apply N2Z.inj_lt; rewrite Hdiv; cbn; Z.div_mod_to_equations; lia).
  destruct (decide (Z.pos p < 100)) as [H2|H2].
  { replace (N.div (N.div (N.pos p) 10) 10) with 0%N
      by (apply N2Z.inj; rewrite !Hdiv; cbn; Z.div_mod_to_equations; lia).
    rewrite pretty_N_go_0. cbn [Str.len]. lia. }
  rewrite pretty_go_digit
    by (apply N2Z.inj_lt; rewrite !Hdiv; cbn; Z.div_mod_to_equations; lia).
  replace (N.div (N.div (N.div (N.pos p) 10) 10) 10) with 0%N
    by (apply N2Z.inj; rewrite !Hdiv; cbn; Z.div_mod_to_equations; lia).
  rewrite pretty_N_go_0. cbn [Str.len]. lia.
Qed.

Lemma format_timestamp_compact dt :
  Datetime.valid dt = true ->
  _format_timestamp (compact dt) = Datetime.strftime_iso_utc dt.
Proof.
  intros Hvalid. unfold _format_timestamp.
  rewrite ljust_long by (rewrite compact_len; lia).
  rewrite StrFacts.take_all by (rewrite compact_len; lia).
  by rewrite (strptime_compact _ Hvalid).
Qed.

(** X1.  The part of C4 that holds: a 14-digit timestamp of a valid date
    and time is rendered: the year as a number, then the month and the day
    behind dashes, and the time of day, each of these with two digits.
    From the year 1000 on the year has its four digits and the rendering
    is [YYYY-MM-DD HH:MM:SS UTC], 23 characters; before, the year is not
    padded and the rendering is shorter. *)
Theorem format_timestamp_valid dt :
  Datetime.valid dt = true ->
  let time :=
    "-" +:+ Datetime.pad2 (Datetime.month dt) +:+ "-" +:+ Datetime.pad2 (Datetime.day dt)
    +:+ " " +:+ Datetime.pad2 (Datetime.hour dt) +:+ ":" +:+ Datetime.pad2 (Datetime.minute dt)
    +:+ ":" +:+ Datetime.pad2 (Datetime.second dt) +:+ " UTC" in
  _format_timestamp (compact dt) = pretty (Datetime.year dt) +:+ time
  /\ (1000 <= Datetime.year dt ->
      _format_timestamp (compact dt) = Datetime.pad4 (Datetime.year dt) +:+ time
      /\ Str.len (_format_timestamp (compact dt)) = 23)
  /\ (Datetime.year dt < 1000 -> Str.len (_format_timestamp (compact dt)) < 23).
Proof.
  intros Hvalid time. rewrite (format_timestamp_compact _ Hvalid).
  pose proof Hvalid as Hv. unfold Datetime.valid in Hv.
  repeat (apply andb_prop in Hv as [Hv ?]).
  repeat match goal with H : (_ <=? _) = true |- _ => apply Z.leb_le in H end.
  split; [reflexivity|]. split.
  - intros Hy. rewrite strftime_len. unfold Datetime.strftime_iso_utc. fold time.
    rewrite pretty_four_digits by lia. split; [reflexivity|].
    unfold Datetime.pad4. rewrite StrFacts.len_app, !pad2_len. lia.
  - intros Hy. rewrite strftime_len.
    pose proof (pretty_short_year (Datetime.year dt)). lia.
Qed.

Lemma format_timestamp_valid_witness :
  let dt := Datetime.mkDatetime 2023 1 1 12 0 0 in
  let time :=
    "-" +:+ Datetime.pad2 (Datetime.month dt) +:+ "-" +:+ Datetime.pad2 (Datetime.day dt)
    +:+ " " +:+ Datetime.pad2 (Datetime.hour dt) +:+ ":" +:+ Datetime.pad2 (Datetime.minute dt)
    +:+ ":" +:+ Datetime.pad2 (Datetime.second dt) +:+ " UTC" in
  _format_timestamp (compact dt) = pretty (Datetime.year dt) +:+ time
  /\ (1000 <= Datetime.year dt ->
      _format_timestamp (compact dt) = Datetime.pad4 (Datetime.year dt) +:+ time
      /\ Str.len (_format_timestamp (compact dt)) = 23)
  /\ (Datetime.year dt < 1000 -> Str.len (_format_timestamp (compact dt)) < 23).
Proof.
  apply (format_timestamp_valid (Datetime.mkDatetime 2023 1 1 12 0 0)). reflexivity.
Defined.

Example format_timestamp_early_year :
  _format_timestamp "09990101000000" = "999-01-01 00:00:00 UTC"
  /\ _format_timestamp "00010101000000" = "1-01-01 00:00:00 UTC"
  /\ _format_timestamp "10000101000000" = "1000-01-01 00:00:00 UTC".
Proof. vm_compute. repeat split; reflexivity. Qed.


(** ** [get_latest_snapshot] *)





Example latest_snapshot_available :
  run (call_tool "get_latest_snapshot" example_args) archive_up
  = (Ok (json_result
           (JObj [("available", JBool true);
                  ("original_url", JStr "example.com");
                  ("snapshot_url",
                    JStr "http://web.archive.org/web/20230101120000/http://example.com");
                  ("timestamp", JStr "20230101120000");
                  ("formatted_time", JStr "2023-01-01 12:00:00 UTC");
                  ("status", JStr "200")])),
     [metadata_request WAYBACK_AVAILABILITY_API [("url", AStr "example.com")]]).
Proof. vm_compute. reflexivity. Qed.

Example latest_snapshot_unavailable :
  run (call_tool "get_latest_snapshot" example_args) archive_without_captures
  = (Ok (json_result
           (JObj [("available", JBool false);
                  ("url", JStr "example.com");
                  ("message", JStr "No snapshots found for this URL")])),
     [metadata_request WAYBACK_AVAILABILITY_API [("url", AStr "example.com")]]).
Proof. vm_compute. reflexivity. Qed.

(** ** [list_tools] and [call_tool] *)

Example list_tools_names : map tool_name list_tools = tool_names.
Proof. reflexivity. Qed.

Example list_tools_required :
  map required_keys list_tools
  = [["url"]; ["url"; "timestamp"]; ["url"]; ["snapshot_url"]; ["url"]].
Proof. reflexivity. Qed.

Lemma missing_url_reported name args up :
  name ∈ ["get_latest_snapshot"; "get_snapshot_at_date"; "search_snapshots";
          "check_url_availability"] ->
  args !! "url" = None ->
  run (call_tool name args) up = (Ok (error_result "Error: 'url'"), []).
Proof.
  intros Hname Hurl. rewrite call_tool_of_dispatch.
  repeat (apply elem_of_cons in Hname as [->|Hname]);
    [..|by apply elem_of_nil in Hname];
    unfold run, dispatch; cbn [String.eqb Ascii.eqb Bool.eqb];
    unfold get_latest_snapshot, get_snapshot_at_date, search_snapshots,
      check_url_availability, Dict.getitem; by rewrite Hurl.
Qed.

(** X3. A call that lacks an argument its tool's schema requires is
    answered with the error-flagged result naming a missing required key,
    and no request goes to the archive. *)
Theorem missing_required_argument t args up :
  t ∈ list_tools ->
  (exists key, key ∈ required_keys t /\ args !! key = None) ->
  exists key,
    key ∈ required_keys t /\ args !! key = None
    /\ run (call_tool (tool_name t) args) up
       = (Ok (error_result ("Error: '" +:+ key +:+ "'")), []).
Proof.
  intros Ht (key & Hkey & Hmissing). unfold list_tools in Ht.
  repeat (apply elem_of_cons in Ht as [->|Ht]); [..|by apply elem_of_nil in Ht];
    cbn [tool_name]; change (required_keys _) with ["url"] in Hkey |- * ||
                     change (required_keys _) with ["url"; "timestamp"] in Hkey |- * ||
                     change (required_keys _) with ["snapshot_url"] in Hkey |- *.
  - apply list_elem_of_singleton in Hkey as ->. exists "url". split; [constructor|].
    split; [done|]. apply missing_url_reported; [by repeat constructor|done].
  - destruct (args !! "url") as [url|] eqn:Hurl.
    + apply elem_of_cons in Hkey as [->|Hkey]; [congruence|].
      apply list_elem_of_singleton in Hkey as ->. exists "timestamp".
      split; [by repeat constructor|]. split; [done|].
      rewrite call_tool_of_dispatch. unfold run, dispatch. cbn [String.eqb Ascii.eqb Bool.eqb].
      unfold get_snapshot_at_date, Dict.getitem. by rewrite Hurl, Hmissing.
    + exists "url". split; [by repeat constructor|]. split; [done|].
      apply missing_url_reported; [by repeat constructor|done].
  - apply list_elem_of_singleton in Hkey as ->. exists "url". split; [constructor|].
    split; [done|]. apply missing_url_reported; [by repeat constructor|done].
  - apply list_elem_of_singleton in Hkey as ->. exists "snapshot_url". split; [constructor|].
    split; [done|]. rewrite call_tool_of_dispatch. unfold run, dispatch.
    cbn [String.eqb Ascii.eqb Bool.eqb]. unfold get_snapshot_content, Dict.getitem.
    by rewrite Hmissing.
  - apply list_elem_of_singleton in Hkey as ->. exists "url". split; [constructor|].
    split; [done|]. apply missing_url_reported; [by repeat constructor|done].
Qed.

Lemma missing_required_argument_witness :
  exists key,
    key ∈ required_keys (the_tool "get_snapshot_at_date")
    /\ ({[ "url" := AStr "example.com" ]} : gmap string atom) !! key = None
    /\ run (call_tool "get_snapshot_at_date" {[ "url" := AStr "example.com" ]}) archive_up
       = (Ok (error_result ("Error: '" +:+ key +:+ "'")), []).
Proof.
  apply (missing_required_argument (the_tool "get_snapshot_at_date")
           {[ "url" := AStr "example.com" ]} archive_up).
  - vm_compute. by repeat constructor.
  - exists "timestamp". split; [vm_compute; by repeat constructor|reflexivity].
Defined.

Lemma schema_default_cases t key v :
  t ∈ list_tools ->
  schema_default t key = Some (json_of_atom v) ->
  (tool_name t = "search_snapshots" /\ key = "limit" /\ v = AInt 10)
  \/ (tool_name t = "get_snapshot_content" /\ key = "raw" /\ v = ABool false).
Proof.
  intros Ht. unfold list_tools in Ht.
  repeat (apply elem_of_cons in Ht as [->|Ht]); [..|by apply elem_of_nil in Ht];
    unfold schema_default, object_schema, schema_property, schema_property_default;
    cbn [inputSchema tool_name Json.assoc];
    change (String.eqb "type" "properties") with false;
    change (String.eqb "properties" "properties") with true;
    cbn [Json.assoc];
    repeat match goal with
           | |- context [String.eqb ?a key] => destruct (String.eqb_spec a key) as [<-|?]
           end;
    cbn [Json.assoc];
    change (String.eqb "type" "default") with false;
    change (String.eqb "description" "default") with false;
    change (String.eqb "default" "default") with true;
    try discriminate;
    intros [= Hv]; destruct v; simplify_eq/=; auto.
Qed.

(** X4. The defaults the schemas of [list_tools] declare are the defaults
    the handlers apply: a call that passes the declared default of an
    argument explicitly has the same outcome, requests included, as the
    call that leaves the argument out. *)
Theorem schema_default_is_handler_default t key v args up :
  t ∈ list_tools ->
  schema_default t key = Some (json_of_atom v) ->
  args !! key = None ->
  run (call_tool (tool_name t) (<[key := v]> args)) up
  = run (call_tool (tool_name t) args) up.
Proof.
  intros Ht Hdefault Hnone.
  destruct (schema_default_cases _ _ _ Ht Hdefault) as [(-> & -> & ->)|(-> & -> & ->)];
    rewrite !call_tool_of_dispatch; unfold run, dispatch;
    cbn [String.eqb Ascii.eqb Bool.eqb].
  - unfold search_snapshots, search_limit, Dict.getitem, Dict.get.
    rewrite lookup_insert_eq, !lookup_insert_ne by done. by rewrite Hnone.
  - unfold get_snapshot_content, Dict.getitem, Dict.get.
    rewrite lookup_insert_eq, !lookup_insert_ne by done. by rewrite Hnone.
Qed.

Lemma schema_default_is_handler_default_witness :
  run (call_tool "search_snapshots" (<["limit" := AInt 10]> example_args)) archive_index
  = run (call_tool "search_snapshots" example_args) archive_index.
Proof.
  apply (schema_default_is_handler_default (the_tool "search_snapshots") "limit" (AInt 10)
           example_args archive_index).
  - vm_compute. by repeat constructor.
  - reflexivity.
  - reflexivity.
Defined.

(** ** What every call does: requests issued, shape of the result *)

Ltac bounded_nil :=
  exists []; rewrite app_nil_r; split; [done|]; split; [cbn; lia|]; split; [constructor|].

Lemma bounded_ret {A} P (Q : A -> Prop) a : Q a -> bounded 0 P Q (ret a).
Proof.
  intros Ha up log. bounded_nil. by intros ? [= <-].
Qed.

Lemma bounded_weaken {A} n n' P (Q : A -> Prop) m :
  (n <= n')%nat -> bounded n P Q m -> bounded n' P Q m.
Proof.
  intros Hn Hm up log. destruct (Hm up log) as (new & ? & ? & ? & ?).
  exists new. split; [done|]. split; [lia|]. by split.
Qed.

Lemma bounded_bind_lift {A B} n P (Q : B -> Prop) (r : result A) (k : A -> M B) :
  (forall a, r = Ok a -> bounded n P Q (k a)) -> bounded n P Q (bind (lift r) k).
Proof.
  intros Hk up log. destruct r as [a|e].
  - rewrite run_lift_ok. by apply Hk.
  - rewrite run_lift_raise. bounded_nil. discriminate.
Qed.

Lemma bounded_bind_send {A B} n (P : request -> Prop) (Q : B -> Prop)
    (endpoint : upstream -> request -> result (response A)) req (k : response A -> M B) :
  P req -> (forall r, bounded n P Q (k r)) -> bounded (S n) P Q (bind (send endpoint req) k).
Proof.
  intros Hreq Hk up log. rewrite run_send. destruct (endpoint up req) as [r|e].
  - destruct (Hk r up (log ++ [req])) as (new & Hlog & Hlen & Hall & Hq).
    exists (req :: new). rewrite Hlog, <- app_assoc.
    split; [done|]. split; [cbn; lia|]. split; [by constructor|done].
  - exists [req]. split; [done|]. split; [cbn; lia|]. split; [by repeat constructor|discriminate].
Qed.

Lemma bounded_bind_status {A B} n P (Q : B -> Prop) (r : response A) (k : unit -> M B) :
  bounded n P Q (k tt) -> bounded n P Q (bind (raise_for_status r) k).
Proof.
  intros Hk up log. rewrite run_raise_for_status. destruct (is_success r); [apply Hk|].
  bounded_nil. discriminate.
Qed.

Lemma bounded_json_result n P v : bounded n P is_json_result (ret (json_result v)).
Proof. apply (bounded_weaken 0); [lia|]. apply bounded_ret. by exists v. Qed.

Ltac bounded_step :=
  first
    [ apply bounded_json_result
    | apply bounded_bind_lift; intros ? _
    | apply bounded_bind_status
    | apply bounded_bind_send; [|intros ?] ].

Lemma get_latest_snapshot_bounded args :
  bounded 1 (allowed_request "get_latest_snapshot") is_json_result (get_latest_snapshot args).
Proof.
  unfold get_latest_snapshot. bounded_step. bounded_step.
  { left. split; [by repeat constructor|by eexists]. }
  do 5 bounded_step.
  match goal with |- context [if ?b then _ else _] => destruct b end; repeat bounded_step.
Qed.

Lemma get_snapshot_at_date_bounded args :
  bounded 1 (allowed_request "get_snapshot_at_date") is_json_result (get_snapshot_at_date args).
Proof.
  unfold get_snapshot_at_date. do 3 bounded_step.
  { left. split; [by repeat constructor|by eexists]. }
  do 5 bounded_step.
  match goal with |- context [if ?b then _ else _] => destruct b end; repeat bounded_step.
Qed.

Lemma search_snapshots_bounded args :
  bounded 1 (allowed_request "search_snapshots") is_json_result (search_snapshots args).
Proof.
  unfold search_snapshots. do 3 bounded_step.
  { right; left. split; [by repeat constructor|by eexists]. }
  repeat bounded_step.
Qed.

Lemma get_snapshot_content_bounded args :
  bounded 1 (allowed_request "get_snapshot_content") is_json_result (get_snapshot_content args).
Proof.
  unfold get_snapshot_content. do 2 bounded_step.
  unfold fetch. match goal with |- context [match ?u with AStr _ => _ | _ => _ end] => destruct u end.
  4: { bounded_step; [right; right; split; [done|by eexists]|]. repeat bounded_step. }
  all: intros up log; bounded_nil; discriminate.
Qed.

Lemma check_url_availability_bounded args :
  bounded 3 (allowed_request "check_url_availability") is_json_result
    (check_url_availability args).
Proof.
  unfold check_url_availability. bounded_step.
  do 3 (bounded_step; [right; left; split; [by repeat constructor|by eexists]|]).
  repeat bounded_step.
Qed.

Lemma dispatch_bounded name args :
  bounded 3 (allowed_request name)
    (fun r => is_json_result r
              \/ ((name ∉ tool_names) /\ r = error_result ("Unknown tool: " +:+ name)))
    (dispatch name args)
  /\ (name <> "check_url_availability" ->
      bounded 1 (allowed_request name) (fun _ => True) (dispatch name args)).
Proof.
  assert (Hrelax : forall n (m : M CallToolResult),
             bounded n (allowed_request name) is_json_result m ->
             forall n', (n <= n')%nat ->
             bounded n' (allowed_request name)
               (fun r => is_json_result r
                         \/ ((name ∉ tool_names)
                             /\ r = error_result ("Unknown tool: " +:+ name))) m
             /\ bounded n' (allowed_request name) (fun _ => True) m).
  { intros n m Hm n' Hn. split; intros up log;
      destruct (Hm up log) as (new & ? & ? & ? & Hq); exists new;
      (split; [done|]; split; [lia|]; split; [done|]); [|done].
    intros r Hr. left. by apply Hq. }
  destruct (dispatch_cases (F := M) name args)
    as [(_ & [(-> & ->)|[(-> & ->)|[(-> & ->)|[(-> & ->)|(-> & ->)]]]])|(Hout & ->)].
  - split; [|intros _].
    + apply (Hrelax 1%nat _ (get_latest_snapshot_bounded args) 3%nat). lia.
    + apply (Hrelax 1%nat _ (get_latest_snapshot_bounded args) 1%nat). lia.
  - split; [|intros _].
    + apply (Hrelax 1%nat _ (get_snapshot_at_date_bounded args) 3%nat). lia.
    + apply (Hrelax 1%nat _ (get_snapshot_at_date_bounded args) 1%nat). lia.
  - split; [|intros _].
    + apply (Hrelax 1%nat _ (search_snapshots_bounded args) 3%nat). lia.
    + apply (Hrelax 1%nat _ (search_snapshots_bounded args) 1%nat). lia.
  - split; [|intros _].
    + apply (Hrelax 1%nat _ (get_snapshot_content_bounded args) 3%nat). lia.
    + apply (Hrelax 1%nat _ (get_snapshot_content_bounded args) 1%nat). lia.
  - split; [|done]. apply (Hrelax 3%nat _ (check_url_availability_bounded args) 3%nat). lia.
  - split; [|intros _]; (apply (bounded_weaken 0); [lia|]); apply bounded_ret; auto.
Qed.

Lemma call_tool_log name args up :
  snd (run (call_tool name args) up) = snd (run (dispatch name args) up).
Proof.
  rewrite call_tool_of_dispatch. by destruct (run (dispatch name args) up) as [[?|?] ?].
Qed.

(** X5. No call issues more than three requests to the archive, and a call
    of any tool but [check_url_availability] issues at most one.  Every
    request is one the tool may issue: a metadata request to the
    availability API for the two availability tools, a metadata request to
    the CDX API for [search_snapshots] and [check_url_availability], a
    content request for [get_snapshot_content]; a name that is no tool
    issues none. *)
Theorem requests_bounded name args up :
  let requests := snd (run (call_tool name args) up) in
  (length requests <= 3)%nat
  /\ (name <> "check_url_availability" -> (length requests <= 1)%nat)
  /\ Forall (allowed_request name) requests
  /\ (name ∉ tool_names -> requests = []).
Proof.
  intros requests. unfold requests. rewrite call_tool_log.
  destruct (dispatch_bounded name args) as [H3 H1].
  destruct (H3 up []) as (new & Hlog & Hlen & Hall & _). unfold run.
  cbn [app] in Hlog. rewrite Hlog. split; [done|]. split; [|split; [done|]].
  - intros Hname. destruct (H1 Hname up []) as (new' & Hlog' & Hlen' & _).
    rewrite Hlog in Hlog'. cbn [app] in Hlog'. by subst.
  - intros Hout. rewrite (dispatch_unknown _ _ Hout) in Hlog. by symmetry.
Qed.


(** X7. [call_tool] and [list_tools] agree on the tools there are: a call
    is answered with [Unknown tool: <name>] exactly when [list_tools]
    registers no tool of that name. *)
Theorem unknown_tool_iff_unlisted name args up :
  fst (run (call_tool name args) up) = Ok (error_result ("Unknown tool: " +:+ name))
  <-> name ∉ map tool_name list_tools.
Proof.
  change (map tool_name list_tools) with tool_names.
  rewrite call_tool_of_dispatch. split.
  - intros Hrun Hin.
    assert (Hjson : bounded 3 (allowed_request name) is_json_result (dispatch name args)).
    { destruct (dispatch_cases (F := M) name args)
        as [(_ & [(-> & ->)|[(-> & ->)|[(-> & ->)|[(-> & ->)|(-> & ->)]]]])|(Hout & _)];
        [apply (bounded_weaken 1); [lia|]..| |done].
      - apply get_latest_snapshot_bounded.
      - apply get_snapshot_at_date_bounded.
      - apply search_snapshots_bounded.
      - apply get_snapshot_content_bounded.
      - apply check_url_availability_bounded. }
    destruct (Hjson up []) as (_ & _ & _ & _ & Hq). unfold run in Hrun.
    destruct (@dispatch M _ name args up []) as [[r|e] log]; cbn [fst] in *.
    + destruct (Hq r eq_refl) as [v ->]. discriminate Hrun.
    + by injection Hrun.
  - intros Hout. by rewrite (dispatch_unknown _ _ Hout).
Qed.

(** ** [get_snapshot_at_date] *)




Example snapshot_at_date_sample :
  run (call_tool "get_snapshot_at_date"
         {[ "url" := AStr "example.com"; "timestamp" := AStr "2023" ]}) archive_up
  = (Ok (json_result
           (JObj [("available", JBool true);
                  ("original_url", JStr "example.com");
                  ("requested_timestamp", JStr "2023");
                  ("snapshot_url",
                    JStr "http://web.archive.org/web/20230101120000/http://example.com");
                  ("actual_timestamp", JStr "20230101120000");
                  ("actual_formatted_time", JStr "2023-01-01 12:00:00 UTC");
                  ("status", JStr "200")])),
     [metadata_request WAYBACK_AVAILABILITY_API
        [("url", AStr "example.com"); ("timestamp", AStr "2023")]]).
Proof. vm_compute. reflexivity. Qed.

(** ** [search_snapshots]: the query sent upstream *)

(** X9. The CDX request of [search_snapshots] carries the [url] argument
    as it is given (wildcards included), [output=json] and the fixed field
    list; [from], [to] and [filter] are sent exactly when [from_date],
    [to_date] and [status_code] are given and truthy (an absent, null or
    empty value sends nothing), the filter being [statuscode:<code>]. *)
Theorem search_query_parameters args up url limit :
  args !! "url" = Some url ->
  search_limit args = Ok limit ->
  let from_date := Dict.get args "from_date" ANone in
  let to_date := Dict.get args "to_date" ANone in
  let status_code := Dict.get args "status_code" ANone in
  let optional (value sent : atom) := if Py.truthy value then Some sent else None in
  exists params,
    snd (run (search_snapshots args) up) = [metadata_request WAYBACK_CDX_API params]
    /\ param "url" params = Some url
    /\ param "output" params = Some (AStr "json")
    /\ param "fl" params = Some (AStr "timestamp,original,statuscode,mimetype,length")
    /\ param "from" params = optional from_date from_date
    /\ param "to" params = optional to_date to_date
    /\ param "filter" params
       = optional status_code (AStr ("statuscode:" +:+ Py.str status_code))
    /\ (length params <= 7)%nat.
Proof.
  intros Hurl Hlim from_date to_date status_code optional.
  eexists. split; [exact (search_snapshots_requests _ up _ _ Hurl Hlim)|].
  fold from_date to_date status_code. unfold optional, search_params, add_if.
  destruct (Py.truthy from_date), (Py.truthy to_date), (Py.truthy status_code);
    repeat split; cbn [length app]; lia.
Qed.

Lemma search_query_parameters_witness :
  let args : gmap string atom :=
    {[ "url" := AStr "example.com/*"; "from_date" := AStr "20200101";
       "to_date" := AStr EmptyString; "status_code" := AStr "200" ]} in
  let from_date := Dict.get args "from_date" ANone in
  let to_date := Dict.get args "to_date" ANone in
  let status_code := Dict.get args "status_code" ANone in
  let optional (value sent : atom) := if Py.truthy value then Some sent else None in
  exists params,
    snd (run (search_snapshots args) archive_index) = [metadata_request WAYBACK_CDX_API params]
    /\ param "url" params = Some (AStr "example.com/*")
    /\ param "output" params = Some (AStr "json")
    /\ param "fl" params = Some (AStr "timestamp,original,statuscode,mimetype,length")
    /\ param "from" params = optional from_date from_date
    /\ param "to" params = optional to_date to_date
    /\ param "filter" params
       = optional status_code (AStr ("statuscode:" +:+ Py.str status_code))
    /\ (length params <= 7)%nat.
Proof.
  apply (search_query_parameters
           {[ "url" := AStr "example.com/*"; "from_date" := AStr "20200101";
              "to_date" := AStr EmptyString; "status_code" := AStr "200" ]}
           archive_index (AStr "example.com/*") 10); reflexivity.
Defined.

Example search_query_sample :
  snd (run (search_snapshots
              {[ "url" := AStr "example.com/*"; "from_date" := AStr "20200101";
                 "to_date" := AStr EmptyString; "status_code" := AStr "200" ]}) archive_index)
  = [metadata_request WAYBACK_CDX_API
       [("url", AStr "example.com/*"); ("output", AStr "json");
        ("fl", AStr "timestamp,original,statuscode,mimetype,length");
        ("limit", AInt 10); ("from", AStr "20200101"); ("filter", AStr "statuscode:200")]].
Proof. vm_compute. reflexivity. Qed.

(** ** [check_url_availability]: the three answers *)

(** X10. The answer to the page count call of [check_url_availability]
    has no effect on the outcome: two archives that both answer it, and
    answer the first and latest calls alike, give the same result and the
    same requests, whatever the two count answers are. *)
Theorem count_answer_unused args up1 up2 url c1 c2 f l :
  args !! "url" = Some url ->
  cdx_api up1 (count_request url) = Ok c1 ->
  cdx_api up2 (count_request url) = Ok c2 ->
  cdx_api up1 (first_request url) = Ok f ->
  cdx_api up2 (first_request url) = Ok f ->
  cdx_api up1 (last_request url) = Ok l ->
  cdx_api up2 (last_request url) = Ok l ->
  run (call_tool "check_url_availability" args) up1
  = run (call_tool "check_url_availability" args) up2.
Proof.
  intros Hurl Hc1 Hc2 Hf1 Hf2 Hl1 Hl2. rewrite !call_tool_of_dispatch.
  change (dispatch _ args) with (check_url_availability (F := M) args).
  rewrite (check_url_availability_answered _ _ _ _ _ _ Hurl Hc1 Hf1 Hl1).
  by rewrite (check_url_availability_answered _ _ _ _ _ _ Hurl Hc2 Hf2 Hl2).
Qed.

Lemma count_answer_unused_witness :
  run (call_tool "check_url_availability" example_args) archive_up
  = run (call_tool "check_url_availability" example_args) archive_without_count.
Proof.
  apply (count_answer_unused example_args archive_up archive_without_count
           (AStr "example.com")
           (mkResponse 200 EmptyString (Ok [["timestamp"; "statuscode"]; ["20230101120000"; "200"]]))
           (mkResponse 503 "Server error '503 Service Unavailable'"
              (Raise (JSONDecodeError "Expecting value: line 1 column 1 (char 0)")))
           (mkResponse 200 EmptyString (Ok [["timestamp"; "statuscode"]; ["20230101120000"; "200"]]))
           (mkResponse 200 EmptyString (Ok [["timestamp"; "statuscode"]; ["20230101120000"; "200"]])));
    reflexivity.
Defined.

Lemma snapshot_of_two_rows header row rest :
  snapshot_of (header :: row :: rest)
  = match second_row_first_cell (header :: row :: rest) with
    | Ok ts => Ok (JObj [("timestamp", JStr ts); ("formatted_time", JStr (_format_timestamp ts))])
    | Raise e => Raise e
    end.
Proof.
  unfold snapshot_of.
  assert (Hlen : nonempty (header :: row :: rest) && (1 <? len (header :: row :: rest)) = true).
  { unfold len. cbn [nonempty length andb]. apply Z.ltb_lt. lia. }
  by rewrite Hlen.
Qed.

Lemma snapshot_from_readable r :
  readable r ->
  exists data snapshot,
    rows_if_200 r = Ok data /\ snapshot_of data = Ok snapshot /\ snapshot_from r snapshot.
Proof.
  intros Hr. unfold rows_if_200, snapshot_from.
  destruct (Z.eqb_spec (status_code r) 200) as [E|E].
  - destruct (Hr E) as (rows & Hb & Hrow). rewrite Hb.
    destruct rows as [|header [|row rest]].
    + exists [], JNull. repeat split. right. split; [|done]. right. exists []. split; [done|cbn; lia].
    + exists [header], JNull. repeat split. right. split; [|done]. right.
      exists [header]. split; [done|cbn; lia].
    + destruct row as [|ts cells]; [by destruct (Hrow [] eq_refl)|].
      eexists _, _. split; [reflexivity|]. split; [by rewrite snapshot_of_two_rows|].
      left. split; [done|]. by eexists _, _, _, _.
  - exists [], JNull. repeat split. right. split; [by left|done].
Qed.

(** X11. When the three calls of [check_url_availability] are answered
    and the first and latest answers are readable, [first_snapshot] is read
    off the first answer alone and [latest_snapshot] off the latest answer
    alone: each is the first cell of the row behind the header row, with
    its rendering, when the answer has status 200 and such a row, and null
    otherwise.  [wayback_url] is the calendar URL of the page. *)
Theorem availability_snapshots args up url c f l :
  args !! "url" = Some url ->
  cdx_api up (count_request url) = Ok c ->
  cdx_api up (first_request url) = Ok f ->
  cdx_api up (last_request url) = Ok l ->
  readable f ->
  readable l ->
  exists first_snapshot latest_snapshot,
    run (check_url_availability args) up
    = (Ok (json_result
             (JObj [("url", json_of_atom url);
                    ("is_archived", JBool (is_not_None first_snapshot));
                    ("first_snapshot", first_snapshot);
                    ("latest_snapshot", latest_snapshot);
                    ("wayback_url", JStr ("https://web.archive.org/web/*/" +:+ Py.str url))])),
       [count_request url; first_request url; last_request url])
    /\ snapshot_from f first_snapshot
    /\ snapshot_from l latest_snapshot.
Proof.
  intros Hurl Hc Hf Hl Rf Rl.
  rewrite (check_url_availability_answered _ _ _ _ _ _ Hurl Hc Hf Hl).
  destruct (snapshot_from_readable f Rf) as (fd & fs & -> & -> & Hfs).
  destruct (snapshot_from_readable l Rl) as (ld & ls & -> & -> & Hls).
  by exists fs, ls.
Qed.

Lemma availability_snapshots_witness :
  exists first_snapshot latest_snapshot,
    run (check_url_availability example_args) archive_up
    = (Ok (json_result
             (JObj [("url", JStr "example.com");
                    ("is_archived", JBool (is_not_None first_snapshot));
                    ("first_snapshot", first_snapshot);
                    ("latest_snapshot", latest_snapshot);
                    ("wayback_url", JStr "https://web.archive.org/web/*/example.com")])),
       [count_request (AStr "example.com"); first_request (AStr "example.com");
        last_request (AStr "example.com")])
    /\ snapshot_from
         (mkResponse 200 EmptyString
            (Ok [["timestamp"; "statuscode"]; ["20230101120000"; "200"]]))
         first_snapshot
    /\ snapshot_from
         (mkResponse 200 EmptyString
            (Ok [["timestamp"; "statuscode"]; ["20230101120000"; "200"]]))
         latest_snapshot.
Proof.
  apply (availability_snapshots example_args archive_up (AStr "example.com")
           (mkResponse 200 EmptyString
              (Ok [["timestamp"; "statuscode"]; ["20230101120000"; "200"]])));
    try reflexivity.
  - intros _. eexists. split; [reflexivity|]. intros row Hrow. injection Hrow as <-. discriminate.
  - intros _. eexists. split; [reflexivity|]. intros row Hrow. injection Hrow as <-. discriminate.
Defined.



Example blank_row_sample :
  run (call_tool "check_url_availability" example_args) archive_blank_row
  = (Ok (error_result "Error: list index out of range"),
     [count_request (AStr "example.com"); first_request (AStr "example.com");
      last_request (AStr "example.com")]).
Proof. vm_compute. reflexivity. Qed.

(** ** [get_snapshot_content]: every URL *)

Lemma strip_prefix_inv p s r : Str.strip_prefix p s = Some r -> s = p +:+ r.
Proof.
  revert s. induction p as [|c p IH]; intros s.
  - destruct s; by intros [= <-].
  - destruct s as [|d s]; cbn [Str.strip_prefix]; [discriminate|].
    destruct (Ascii.eqb_spec c d) as [<-|?]; [|discriminate].
    intros H. by rewrite StrFacts.app_cons, <- (IH _ H).
Qed.

Lemma strip_prefix_short p s : Str.len s < Str.len p -> Str.strip_prefix p s = None.
Proof.
  revert s. induction p as [|c p IH]; intros s; cbn [Str.len].
  - pose proof (StrFacts.len_nonneg s). lia.
  - destruct s as [|d s]; cbn [Str.strip_prefix Str.len]; [done|].
    intros H. destruct (Ascii.eqb c d); [|done]. apply IH. lia.
Qed.

Lemma contains_short sep s : Str.len s < Str.len sep -> Str.contains sep s = false.
Proof.
  induction s as [|c s IH]; intros H; rewrite StrFacts.contains_eq.
  - by rewrite strip_prefix_short.
  - rewrite strip_prefix_short by done. apply IH. cbn [Str.len] in H. lia.
Qed.

(** What [split] finds is the leftmost occurrence of the separator. *)
Lemma split_once_inv sep0 c s a b :
  Str.split_once (sep0 +:+ String c EmptyString) s = Some (a, b) ->
  s = a +:+ (sep0 +:+ String c EmptyString) +:+ b
  /\ Str.contains (sep0 +:+ String c EmptyString) (a +:+ sep0) = false.
Proof.
  set (sep := sep0 +:+ String c EmptyString).
  revert a. induction s as [|x s IH]; intros a; rewrite StrFacts.split_once_eq.
  - destruct (Str.strip_prefix sep EmptyString) as [rest|] eqn:Hp; [|discriminate].
    intros [= <- <-]. split; [rewrite StrFacts.app_nil_l; by apply strip_prefix_inv|].
    rewrite StrFacts.app_nil_l. apply contains_short.
    unfold sep. rewrite StrFacts.len_app. cbn [Str.len]. lia.
  - destruct (Str.strip_prefix sep (String x s)) as [rest|] eqn:Hp.
    + intros [= <- <-]. split; [rewrite StrFacts.app_nil_l; by apply strip_prefix_inv|].
      rewrite StrFacts.app_nil_l. apply contains_short.
      unfold sep. rewrite StrFacts.len_app. cbn [Str.len]. lia.
    + destruct (Str.split_once sep s) as [[a' b']|] eqn:Hs; [|discriminate].
      intros [= <- <-]. destruct (IH a' eq_refl) as [-> Hno]. split; [done|].
      rewrite StrFacts.app_cons, StrFacts.contains_eq.
      destruct (Str.strip_prefix sep (String x (a' +:+ sep0))) as [r|] eqn:Hq; [|exact Hno].
      apply strip_prefix_inv in Hq.
      assert (Hp' : Str.strip_prefix sep (sep +:+ (r +:+ String c EmptyString +:+ b')) = None).
      { rewrite <- StrFacts.app_assoc, <- Hq. rewrite <- Hp. f_equal.
        unfold sep. by rewrite StrFacts.app_cons, !StrFacts.app_assoc. }
      by rewrite StrFacts.strip_prefix_app in Hp'.
Qed.

(** X13. For every snapshot URL that is a string, [get_snapshot_content]
    issues one fetch, and the URL it fetches is the given one or, only with
    a truthy [raw], the given one with [id_] put in front of the first [/]
    that follows the first [/web/]; nothing else of the URL changes.  When
    the fetch succeeds, the [snapshot_url] of the result is the URL that
    was fetched. *)
Theorem fetched_url_of_snapshot_url args up s :
  args !! "snapshot_url" = Some (AStr s) ->
  exists u,
    snd (run (get_snapshot_content args) up) = [content_request u]
    /\ (u = s
        \/ (Py.truthy (Dict.get args "raw" (ABool false)) = true
            /\ exists a ts rest,
                 s = a +:+ "/web/" +:+ ts +:+ "/" +:+ rest
                 /\ u = a +:+ "/web/" +:+ ts +:+ "id_/" +:+ rest
                 /\ Str.contains "/web/" (a +:+ "/web") = false
                 /\ Str.contains "/" ts = false))
    /\ (Py.truthy (Dict.get args "raw" (ABool false)) = false -> u = s)
    /\ (forall r, web up (content_request u) = Ok r ->
                  is_success r = true ->
                  exists fields,
                    fst (run (get_snapshot_content args) up) = Ok (json_result (JObj fields))
                    /\ Json.assoc "snapshot_url" fields = Some (JStr u)).
Proof.
  intros Hurl.
  assert (Hfetch : exists u,
             fetch_url (Dict.get args "raw" (ABool false)) (AStr s) = Ok (AStr u)
             /\ (u = s
                 \/ (Py.truthy (Dict.get args "raw" (ABool false)) = true
                     /\ exists a ts rest,
                          s = a +:+ "/web/" +:+ ts +:+ "/" +:+ rest
                          /\ u = a +:+ "/web/" +:+ ts +:+ "id_/" +:+ rest
                          /\ Str.contains "/web/" (a +:+ "/web") = false
                          /\ Str.contains "/" ts = false))
             /\ (Py.truthy (Dict.get args "raw" (ABool false)) = false -> u = s)).
  { unfold fetch_url. destruct (Py.truthy (Dict.get args "raw" (ABool false))).
    2: { exists s. split; [done|]. split; [by left|done]. }
    rewrite StrFacts.contains_split_once.
    destruct (Str.split_once "/web/" s) as [[a b]|] eqn:Hweb.
    2: { exists s. split; [done|]. split; [by left|done]. }
    destruct (Str.split_once "/" b) as [[ts rest]|] eqn:Hslash.
    2: { exists s. split; [done|]. split; [by left|done]. }
    eexists. split; [reflexivity|]. split; [|done]. right. split; [done|].
    apply (split_once_inv "/web" "/") in Hweb as [-> Hno].
    apply (split_once_inv EmptyString "/") in Hslash as [-> Hno'].
    rewrite StrFacts.app_empty_r in Hno'. by exists a, ts, rest. }
  destruct Hfetch as (u & Hfetch & Hform & Hplain). exists u.
  split; [exact (get_snapshot_content_requests _ _ _ _ Hurl Hfetch)|].
  split; [done|]. split; [done|].
  intros r Hweb Hs. rewrite (get_snapshot_content_fetched _ _ _ _ _ Hurl Hfetch Hweb Hs).
  eexists. split; [reflexivity|]. reflexivity.
Qed.

Lemma fetched_url_of_snapshot_url_witness :
  exists u,
    snd (run (get_snapshot_content raw_args) archive_up) = [content_request u]
    /\ (u = "https://web.archive.org/web/20230101120000/https://example.com"
        \/ (Py.truthy (Dict.get raw_args "raw" (ABool false)) = true
            /\ exists a ts rest,
                 "https://web.archive.org/web/20230101120000/https://example.com"
                 = a +:+ "/web/" +:+ ts +:+ "/" +:+ rest
                 /\ u = a +:+ "/web/" +:+ ts +:+ "id_/" +:+ rest
                 /\ Str.contains "/web/" (a +:+ "/web") = false
                 /\ Str.contains "/" ts = false))
    /\ (Py.truthy (Dict.get raw_args "raw" (ABool false)) = false ->
        u = "https://web.archive.org/web/20230101120000/https://example.com")
    /\ (forall r, web archive_up (content_request u) = Ok r ->
                  is_success r = true ->
                  exists fields,
                    fst (run (get_snapshot_content raw_args) archive_up)
                    = Ok (json_result (JObj fields))
                    /\ Json.assoc "snapshot_url" fields = Some (JStr u)).
Proof.
  apply (fetched_url_of_snapshot_url raw_args archive_up
           "https://web.archive.org/web/20230101120000/https://example.com").
  reflexivity.
Defined.

(** X14. The tools compose: the [snapshot_url] of a record that
    [search_snapshots] builds, given to [get_snapshot_content] with [raw]
    true, is fetched as
    [https://web.archive.org/web/<timestamp>id_/<original_url>], with the
    timestamp and the original URL of that record, whenever the timestamp
    holds no [/]. *)
Theorem search_record_fetched_raw headers row ts original u args up :
  json_field "timestamp" (snapshot_record headers row) = Some (JStr ts) ->
  json_field "original_url" (snapshot_record headers row) = Some (JStr original) ->
  json_field "snapshot_url" (snapshot_record headers row) = Some (JStr u) ->
  Str.contains "/" ts = false ->
  args !! "snapshot_url" = Some (AStr u) ->
  args !! "raw" = Some (ABool true) ->
  snd (run (get_snapshot_content args) up)
  = [content_request ("https://web.archive.org/web/" +:+ ts +:+ "id_/" +:+ original)].
Proof.
  intros Hts Horiginal Hu Hslash Hurl Hraw.
  unfold snapshot_record in *.
  cbn [json_field Json.assoc String.eqb Ascii.eqb Bool.eqb] in Hts, Horiginal, Hu.
  injection Hts as <-. injection Horiginal as <-. injection Hu as <-.
  apply (get_snapshot_content_requests _ _ _ _ Hurl).
  unfold Dict.get. rewrite Hraw.
  exact (fetch_url_raw (ABool true) "https://web.archive.org" _ _ eq_refl eq_refl Hslash).
Qed.

Lemma search_record_fetched_raw_witness :
  snd (run (get_snapshot_content
              {[ "snapshot_url" := AStr "https://web.archive.org/web/20230101120000/http://example.com/";
                 "raw" := ABool true ]}) archive_up)
  = [content_request ("https://web.archive.org/web/" +:+ "20230101120000" +:+ "id_/"
                      +:+ "http://example.com/")].
Proof.
  apply (search_record_fetched_raw
           ["timestamp"; "original"; "statuscode"; "mimetype"; "length"]
           ["20230101120000"; "http://example.com/"; "200"; "text/html"; "1234"]
           "20230101120000" "http://example.com/"
           "https://web.archive.org/web/20230101120000/http://example.com/");
    reflexivity.
Defined.

(** ** [_format_timestamp]: 14 digits that are no date *)

Lemma match_alternative_len a s m rest :
  Datetime.match_alternative a s = Some (m, rest) -> Str.len m = len a.
Proof.
  revert s m rest. induction a as [|p a IH]; intros s m rest.
  - cbn [Datetime.match_alternative]. destruct s; by intros [= <- <-].
  - destruct s as [|c s]; cbn [Datetime.match_alternative]; [discriminate|].
    destruct (p c); [|discriminate].
    destruct (Datetime.match_alternative a s) as [[m' r']|] eqn:E; [|discriminate].
    intros [= <- <-]. unfold len in *. cbn [Str.len length]. rewrite (IH _ _ _ E). lia.
Qed.

(** What [match_groups] returns splits the input: the texts of the groups
    in sequence, then the rest; and each text is as long as one of the
    alternatives of its group. *)
Lemma match_groups_sound gs s ms rest :
  Datetime.match_groups gs s = Some (ms, rest) ->
  s = foldr String.append rest ms
  /\ Forall2 (fun g m => exists a, In a g /\ Str.len m = len a) gs ms.
Proof.
  revert s ms rest. induction gs as [|g gs IHgs]; intros s ms rest.
  - cbn [Datetime.match_groups]. intros [= <- <-]. split; [done|constructor].
  - induction g as [|a g IHg]; rewrite match_groups_eq; [discriminate|].
    assert (Hmore : Datetime.match_groups (g :: gs) s = Some (ms, rest) ->
                    s = foldr String.append rest ms
                    /\ Forall2 (fun g m => exists a, In a g /\ Str.len m = len a)
                         ((a :: g) :: gs) ms).
    { intros H. destruct (IHg H) as [Hs Hall]. split; [done|].
      inversion Hall as [|g0 m0 gs0 ms0 (a0 & Hin & Hlen) Hrest]; subst.
      constructor; [|done]. exists a0. split; [by right|done]. }
    destruct (Datetime.match_alternative a s) as [[m r]|] eqn:Ha; [|exact Hmore].
    destruct (Datetime.match_groups gs r) as [[ms' r']|] eqn:Hgs; [|exact Hmore].
    intros [= <- <-]. destruct (IHgs _ _ _ Hgs) as [Hr Hall]. split.
    + cbn [foldr]. rewrite <- Hr. by apply match_alternative_whole in Ha.
    + constructor; [|done]. exists a. split; [by left|].
      by apply match_alternative_len in Ha.
Qed.

Lemma app_inv_len a a' b b' :
  Str.len a = Str.len a' -> a +:+ b = a' +:+ b' -> a = a' /\ b = b'.
Proof.
  revert a'. induction a as [|c a IH]; intros a' Hlen Heq.
  - destruct a' as [|c' a']; [by rewrite !StrFacts.app_nil_l in Heq|].
    cbn [Str.len] in Hlen. pose proof (StrFacts.len_nonneg a'). lia.
  - destruct a' as [|c' a'].
    + cbn [Str.len] in Hlen. pose proof (StrFacts.len_nonneg a). lia.
    + rewrite !StrFacts.app_cons in Heq. injection Heq as -> Heq.
      cbn [Str.len] in Hlen. destruct (IH a' ltac:(lia) Heq) as [-> ->]. done.
Qed.

Lemma two_digit_field v : 0 <= v <= 99 -> Datetime.field (Datetime.pad2 v) = v.
Proof.
  intros Hv.
  assert (Hall : forallb (fun v => Datetime.field (Datetime.pad2 v) =? v) (seqZ 0 100) = true)
    by (vm_compute; reflexivity).
  rewrite forallb_forall in Hall. apply Z.eqb_eq, Hall, list_elem_of_In, elem_of_seqZ. lia.
Qed.

Lemma four_digit_field y : 0 <= y <= 9999 -> Datetime.field (Datetime.pad4 y) = y.
Proof.
  intros Hy. destruct (decide (y = 0)) as [->|Hne]; [by vm_compute|].
  apply year_round_trip. lia.
Qed.

Lemma group_lengths :
  Forall (fun a : Datetime.alternative => len a = 4) Datetime.re_Y
  /\ Forall (fun g => Forall (fun a : Datetime.alternative => len a <= 2) g)
       [Datetime.re_m; Datetime.re_d; Datetime.re_H; Datetime.re_M; Datetime.re_S].
Proof.
  split;
    repeat match goal with
           | |- Forall _ _ => constructor
           | |- _ = _ => reflexivity
           | |- _ <= _ => vm_compute; discriminate
           end.
Qed.

Lemma alternative_len_in (P : Z -> Prop) (g : Datetime.group) m :
  Forall (fun a : Datetime.alternative => P (len a)) g ->
  (exists a, In a g /\ Str.len m = len a) ->
  P (Str.len m).
Proof.
  intros Hall (a & Hin & ->). rewrite Forall_forall in Hall.
  by apply Hall, list_elem_of_In.
Qed.

(** A 14-digit timestamp parses to its own fields or not at all. *)
Lemma strptime_compact_inv dt dt' :
  0 <= Datetime.year dt <= 9999 ->
  0 <= Datetime.month dt <= 99 ->
  0 <= Datetime.day dt <= 99 ->
  0 <= Datetime.hour dt <= 99 ->
  0 <= Datetime.minute dt <= 99 ->
  0 <= Datetime.second dt <= 99 ->
  Datetime.strptime_YmdHMS (compact dt) = Ok dt' ->
  dt' = dt.
Proof.
  intros Hy Hm Hd Hh Hmi Hs. unfold Datetime.strptime_YmdHMS.
  destruct (Datetime.match_groups _ (compact dt)) as [[fields rest]|] eqn:Hmatch; [|discriminate].
  do 7 (destruct fields as [|? fields]; try discriminate).
  destruct (Str.len rest =? 0) eqn:Hrest; [|discriminate]. cbn [negb].
  match goal with |- context [Datetime.valid ?d] => destruct (Datetime.valid d) end;
    [|discriminate].
  intros [= <-].
  apply Z.eqb_eq, len_zero in Hrest. subst rest.
  apply match_groups_sound in Hmatch as [Hsplit Hlens]. cbn [foldr] in Hsplit.
  destruct group_lengths as [HY Hothers].
  repeat match goal with
         | H : Forall2 _ (_ :: _) (_ :: _) |- _ => inversion H; clear H; subst
         | H : Forall _ (_ :: _) |- _ => inversion H; clear H; subst
         end.
  repeat match goal with
         | Hall : Forall (fun a => ?P (len a)) ?g, Hin : exists a, In a ?g /\ Str.len ?m = len a
           |- _ => pose proof (alternative_len_in (fun n => P n) g m Hall Hin); clear Hin
         | Hall : Forall (fun a => len a = 4) ?g, Hin : exists a, In a ?g /\ Str.len ?m = len a
           |- _ => pose proof (alternative_len_in (fun n => n = 4) g m Hall Hin); clear Hin
         | Hall : Forall (fun a => len a <= 2) ?g, Hin : exists a, In a ?g /\ Str.len ?m = len a
           |- _ => pose proof (alternative_len_in (fun n => n <= 2) g m Hall Hin); clear Hin
         end.
  cbv beta in *.
  assert (Hlen := f_equal Str.len Hsplit).
  rewrite compact_len, !StrFacts.len_app in Hlen. cbn [Str.len] in Hlen.
  repeat match goal with m : string |- _ => pose proof (StrFacts.len_nonneg m); revert m end.
  intros.
  rewrite StrFacts.app_empty_r in Hsplit. unfold compact in Hsplit.
  apply app_inv_len in Hsplit as [<- Hsplit];
    [|unfold Datetime.pad4; rewrite StrFacts.len_app, !pad2_len; lia].
  do 4 (apply app_inv_len in Hsplit as [<- Hsplit]; [|rewrite pad2_len; lia]).
  subst. destruct dt as [y m d h mi s]. cbn [Datetime.year Datetime.month Datetime.day
    Datetime.hour Datetime.minute Datetime.second] in *.
  rewrite four_digit_field by done. by rewrite !two_digit_field by done.
Qed.

(** X15. A 14-digit timestamp whose fields are no valid date and time
    (a month 00 or 13, a day the month does not have, an hour above 23, a
    minute or second above 59, the year 0000) comes back from
    [_format_timestamp] unchanged. *)
Theorem format_timestamp_invalid dt :
  0 <= Datetime.year dt <= 9999 ->
  0 <= Datetime.month dt <= 99 ->
  0 <= Datetime.day dt <= 99 ->
  0 <= Datetime.hour dt <= 99 ->
  0 <= Datetime.minute dt <= 99 ->
  0 <= Datetime.second dt <= 99 ->
  Datetime.valid dt = false ->
  _format_timestamp (compact dt) = compact dt.
Proof.
  intros Hy Hm Hd Hh Hmi Hs Hinvalid. unfold _format_timestamp.
  rewrite ljust_long by (rewrite compact_len; lia).
  rewrite StrFacts.take_all by (rewrite compact_len; lia).
  destruct (Datetime.strptime_YmdHMS (compact dt)) as [dt'|e] eqn:Hparse; [|done].
  pose proof (strptime_valid _ _ Hparse) as Hvalid.
  apply strptime_compact_inv in Hparse; [|done..]. subst. congruence.
Qed.

Lemma format_timestamp_invalid_witness :
  _format_timestamp (compact (Datetime.mkDatetime 2023 2 30 0 0 0))
  = compact (Datetime.mkDatetime 2023 2 30 0 0 0).
Proof.
  apply (format_timestamp_invalid (Datetime.mkDatetime 2023 2 30 0 0 0));
    first [reflexivity | cbn; lia].
Defined.

(** *** Short timestamps *)

(** X16. A timestamp cut off behind the day, the hour or the minute is
    read with the missing digits as zeros: the 8, 10 or 12 digits of a
    valid date and time are rendered as the date (the year as a number,
    not padded; the month and the day with two digits) and the time of
    day, with the time fields they lack at [00]. *)
Theorem format_timestamp_prefix y m d h mi :
  Datetime.valid (Datetime.mkDatetime y m d h mi 0) = true ->
  let date := Datetime.pad4 y +:+ Datetime.pad2 m +:+ Datetime.pad2 d in
  let rendering (h mi : Z) :=
    pretty y +:+ "-" +:+ Datetime.pad2 m +:+ "-" +:+ Datetime.pad2 d +:+ " "
    +:+ Datetime.pad2 h +:+ ":" +:+ Datetime.pad2 mi +:+ ":00 UTC" in
  _format_timestamp (date +:+ Datetime.pad2 h +:+ Datetime.pad2 mi) = rendering h mi
  /\ (mi = 0 -> _format_timestamp (date +:+ Datetime.pad2 h) = rendering h 0)
  /\ (mi = 0 -> h = 0 -> _format_timestamp date = rendering 0 0).
Proof.
  intros Hvalid date rendering.
  change (rendering h mi) with (Datetime.strftime_iso_utc (Datetime.mkDatetime y m d h mi 0)).
  change (rendering h 0) with (Datetime.strftime_iso_utc (Datetime.mkDatetime y m d h 0 0)).
  change (rendering 0 0) with (Datetime.strftime_iso_utc (Datetime.mkDatetime y m d 0 0 0)).
  clearbody rendering.
  assert (Hpadded : forall ts dt,
             Datetime.valid dt = true -> Str.ljust 14 "0" ts = compact dt ->
             _format_timestamp ts = Datetime.strftime_iso_utc dt).
  { intros ts dt Hv Hts. unfold _format_timestamp. rewrite Hts.
    rewrite StrFacts.take_all by (rewrite compact_len; lia).
    by rewrite (strptime_compact _ Hv). }
  assert (Hdate : Str.len date = 8).
  { unfold date, Datetime.pad4. by rewrite !StrFacts.len_app, !pad2_len. }
  split; [|split].
  - apply Hpadded; [done|]. unfold Str.ljust.
    rewrite !StrFacts.len_app, Hdate, !pad2_len. unfold compact, date.
    cbn [Datetime.year Datetime.month Datetime.day Datetime.hour Datetime.minute
         Datetime.second].
    by rewrite !StrFacts.app_assoc.
  - intros ->. apply Hpadded; [done|]. unfold Str.ljust.
    rewrite !StrFacts.len_app, Hdate, !pad2_len. unfold compact, date.
    cbn [Datetime.year Datetime.month Datetime.day Datetime.hour Datetime.minute
         Datetime.second].
    by rewrite !StrFacts.app_assoc.
  - intros -> ->. apply Hpadded; [done|]. unfold Str.ljust. rewrite Hdate.
    unfold compact, date.
    cbn [Datetime.year Datetime.month Datetime.day Datetime.hour Datetime.minute
         Datetime.second].
    by rewrite !StrFacts.app_assoc.
Qed.

Lemma format_timestamp_prefix_witness :
  let date := Datetime.pad4 2023 +:+ Datetime.pad2 12 +:+ Datetime.pad2 31 in
  let rendering (h mi : Z) :=
    pretty 2023 +:+ "-" +:+ Datetime.pad2 12 +:+ "-" +:+ Datetime.pad2 31 +:+ " "
    +:+ Datetime.pad2 h +:+ ":" +:+ Datetime.pad2 mi +:+ ":00 UTC" in
  _format_timestamp (date +:+ Datetime.pad2 0 +:+ Datetime.pad2 0) = rendering 0 0
  /\ (0 = 0 -> _format_timestamp (date +:+ Datetime.pad2 0) = rendering 0 0)
  /\ (0 = 0 -> 0 = 0 -> _format_timestamp date = rendering 0 0).
Proof. apply (format_timestamp_prefix 2023 12 31 0 0). reflexivity. Defined.

Example format_timestamp_date_sample :
  _format_timestamp "20231231" = "2023-12-31 00:00:00 UTC"
  /\ _format_timestamp "0999010112" = "999-01-01 12:00:00 UTC".
Proof. vm_compute. split; reflexivity. Qed.

(** X17. The result of [_format_timestamp] has at least 14 characters,
    so an input shorter than 14 characters never comes back as it is: it
    is rendered, or it comes back padded with zeros. *)
Theorem format_timestamp_never_short ts :
  14 <= Str.len (_format_timestamp ts)
  /\ (Str.len ts < 14 ->
      _format_timestamp ts <> ts
      /\ ((exists dt, Datetime.valid dt = true
                      /\ _format_timestamp ts = Datetime.strftime_iso_utc dt)
          \/ _format_timestamp ts = ts +:+ Str.replicate (Z.to_nat (14 - Str.len ts)) "0")).
Proof.
  assert (Hlen : 14 <= Str.len (_format_timestamp ts)).
  { destruct (format_timestamp_cases ts) as [(dt & _ & _ & ->)|[_ ->]].
    - pose proof (strftime_len_ge dt). lia.
    - rewrite ljust_len. lia. }
  split; [done|]. intros Hshort. split.
  - intros Heq. rewrite Heq in Hlen. lia.
  - destruct (format_timestamp_cases ts) as [(dt & _ & Hv & ->)|[_ ->]].
    + left. by exists dt.
    + by right.
Qed.

(** ** [search_snapshots]: records under the requested field list *)

Lemma entry_requested_fields row key (i : nat) :
  ["timestamp"; "original"; "statuscode"; "mimetype"; "length"] !! i = Some key ->
  Dict.get_str
    (Dict.of_pairs (zip ["timestamp"; "original"; "statuscode"; "mimetype"; "length"] row))
    key EmptyString
  = default EmptyString (row !! i).
Proof.
  intros Hkey.
  do 5 (destruct i as [|i]; [injection Hkey as <-;
                             do 5 (destruct row as [|? row]; [reflexivity|]); reflexivity|]).
  discriminate Hkey.
Qed.

(** X18. Under the header row of the field list the request asks for
    ([timestamp,original,statuscode,mimetype,length]), a record of
    [search_snapshots] holds the cells of its row by position, a missing
    cell reading as the empty string and cells behind the fifth being
    ignored; its [snapshot_url] is built from the first two cells. *)
Theorem record_under_requested_fields row :
  let cell (i : nat) := default EmptyString (row !! i) in
  snapshot_record ["timestamp"; "original"; "statuscode"; "mimetype"; "length"] row
  = JObj [("timestamp", JStr (cell 0%nat));
          ("formatted_time", JStr (_format_timestamp (cell 0%nat)));
          ("snapshot_url",
            JStr ("https://web.archive.org/web/" +:+ cell 0%nat +:+ "/" +:+ cell 1%nat));
          ("original_url", JStr (cell 1%nat));
          ("status_code", JStr (cell 2%nat));
          ("mime_type", JStr (cell 3%nat));
          ("size_bytes", JStr (cell 4%nat))].
Proof.
  intros cell. unfold snapshot_record, cell.
  rewrite (entry_requested_fields row "timestamp" 0 eq_refl).
  rewrite (entry_requested_fields row "original" 1 eq_refl).
  rewrite (entry_requested_fields row "statuscode" 2 eq_refl).
  rewrite (entry_requested_fields row "mimetype" 3 eq_refl).
  rewrite (entry_requested_fields row "length" 4 eq_refl).
  reflexivity.
Qed.
